(** * capnp-wrapper-gen: the type resolver and the wrapper generator

    A shallow embedding of [main.py].  The schema reflection objects of
    pycapnp are modelled by the data the program reads from them; Python
    exceptions are modelled by an error monad; Python's insertion-ordered
    [dict] with string keys is modelled by an association list that is
    updated in place; the two id indexes (whose order is never observed)
    are finite maps. *)

From Stdlib Require Import ZArith Lia List Ascii String Bool.
From stdpp Require Import base strings gmap.
Import ListNotations.
Local Open Scope list_scope.

(** ** Exceptions *)

Inductive Exception : Type :=
| KeyError        (* subscript of a dict with a missing key *)
| IndexError      (* subscript of a string out of range *)
| AttributeError  (* [.items()] on a value that is not a dict *)
| KjException     (* reading [.slot] of a field that is no slot *)
| LoadError.      (* raised by [capnp.load] *)

Inductive Result (A : Type) : Type :=
| Ok (a : A)
| Raise (e : Exception).
Arguments Ok {A} a.
Arguments Raise {A} e.

Definition bind {A B} (m : Result A) (k : A -> Result B) : Result B :=
  match m with
  | Ok a => k a
  | Raise e => Raise e
  end.

Notation "'let*' x ':=' m 'in' k" := (bind m (fun x => k))
  (at level 10, x name, m at level 100, k at level 200).

(** ** Python strings and dicts *)

Definition nl : string := String (ascii_of_nat 10) EmptyString.

(** [str.upper] and [str.lower] on one character.  The strings of this
    development are strings of ASCII characters, which is what the names of
    a schema are; on a character outside ASCII, which Python can change,
    the two functions below do nothing, and the statements that depend on
    it ask for [is_ascii]. *)
Definition upper (c : ascii) : ascii :=
  let n := nat_of_ascii c in
  if (97 <=? n)%nat && (n <=? 122)%nat then ascii_of_nat (n - 32) else c.

Definition lower (c : ascii) : ascii :=
  let n := nat_of_ascii c in
  if (65 <=? n)%nat && (n <=? 90)%nat then ascii_of_nat (n + 32) else c.

(** [sep.join(xs)] *)
Fixpoint join (sep : string) (xs : list string) : string :=
  match xs with
  | [] => ""
  | [x] => x
  | x :: rest => x +:+ sep +:+ join sep rest
  end.

(** [n * ' '] *)
Fixpoint spaces (n : nat) : string :=
  match n with
  | O => ""
  | S k => " " +:+ spaces k
  end.

(** An insertion-ordered dict with string keys. *)
Definition dict (V : Type) : Type := list (string * V).

Fixpoint dict_get {V} (d : dict V) (k : string) : option V :=
  match d with
  | [] => None
  | (k', v) :: rest => if String.eqb k' k then Some v else dict_get rest k
  end.

(** [d[k] = v]: an existing key keeps its position. *)
Fixpoint dict_set {V} (d : dict V) (k : string) (v : V) : dict V :=
  match d with
  | [] => [(k, v)]
  | (k', v') :: rest =>
      if String.eqb k' k then (k', v) :: rest else (k', v') :: dict_set rest k v
  end.

Definition dict_keys {V} (d : dict V) : list string := map fst d.

(** [k in d] *)
Definition dict_mem {V} (d : dict V) (k : string) : bool :=
  match dict_get d k with Some _ => true | None => false end.

(** [d[k]] *)
Definition subscript {V} (d : dict V) (k : string) : Result V :=
  match dict_get d k with Some v => Ok v | None => Raise KeyError end.

(** [m[k]] on an id index *)
Definition subscript_id (m : gmap Z string) (k : Z) : Result string :=
  match m !! k with Some v => Ok v | None => Raise KeyError end.

(** ** Module constants *)

Definition CAPNP_BASIC_TYPES : dict string :=
  [ ("void", "void");
    ("bool", "bool");
    ("int8", "int8_t");
    ("int16", "int16_t");
    ("int32", "int32_t");
    ("int64", "int64_t");
    ("uint8", "uint8_t");
    ("uint16", "uint16_t");
    ("uint32", "uint32_t");
    ("uint64", "uint64_t");
    ("float32", "float");
    ("float64", "double");
    ("text", "std::string");
    ("data", "std::string") ].

Definition BASE_NAMESPACE : string := "NKikimrCapnProto_".

(** [s[0].upper() + s[1:]] *)
Definition cap (s : string) : Result string :=
  match s with
  | EmptyString => Raise IndexError
  | String c rest => Ok (String (upper c) rest)
  end.

(** [s[0].lower() + s[1:]] *)
Definition low (s : string) : Result string :=
  match s with
  | EmptyString => Raise IndexError
  | String c rest => Ok (String (lower c) rest)
  end.

(** ** The schema as the reflection API exposes it *)

(** The [Type] union of a slot: [which()] names the active member. *)
Inductive SlotType : Type :=
| t_void | t_bool
| t_int8 | t_int16 | t_int32 | t_int64
| t_uint8 | t_uint16 | t_uint32 | t_uint64
| t_float32 | t_float64
| t_text | t_data
| t_list (elementType : SlotType)
| t_enum (typeId : Z)
| t_struct (typeId : Z)
| t_interface (typeId : Z)
| t_anyPointer.

Definition which (t : SlotType) : string :=
  match t with
  | t_void => "void" | t_bool => "bool"
  | t_int8 => "int8" | t_int16 => "int16" | t_int32 => "int32" | t_int64 => "int64"
  | t_uint8 => "uint8" | t_uint16 => "uint16" | t_uint32 => "uint32"
  | t_uint64 => "uint64"
  | t_float32 => "float32" | t_float64 => "float64"
  | t_text => "text" | t_data => "data"
  | t_list _ => "list"
  | t_enum _ => "enum"
  | t_struct _ => "struct"
  | t_interface _ => "interface"
  | t_anyPointer => "anyPointer"
  end.

(** The [Field] union of a field's [proto]: a slot with its type, or a
    group (a named union is a group too), which has no slot. *)
Inductive Field : Type :=
| f_slot (type_ : SlotType)
| f_group (typeId : Z).

(** A value of [schema.__dict__]. *)
Inductive SchemaAttr : Type :=
| StructModule (id : Z) (fields : list (string * Field))
| EnumModule (id : Z) (enumerants : list string)
| OtherAttr.

Definition Schema : Type := list (string * SchemaAttr).

(** A value of [nodes]: a dict (record) or a list (enumeration). *)
Inductive Node : Type :=
| NDict (fields : dict string)
| NList (enumerants : list string).

(** ** class Parser *)

Module Parser.

Record t : Type := mk {
  struct_ids : gmap Z string;  (* struct id -> struct name *)
  enum_ids : gmap Z string;    (* enum id -> enum name *)
  nodes : dict Node            (* node name -> fields | enumerants *)
}.

(** [__init__] *)
Definition init : t := mk ∅ ∅ [].

Definition get_list_type (self : t) (elementType : SlotType) : Result string :=
  match elementType with
  | t_struct typeId => subscript_id (struct_ids self) typeId
  | other => Ok (which other)
  end.

(** The value bound to [type_] for one slot field of [parse_struct]. *)
Definition resolve_type (self : t) (type_ : SlotType) : Result string :=
  match type_ with
  | t_struct typeId => subscript_id (struct_ids self) typeId
  | t_enum typeId => subscript_id (enum_ids self) typeId
  | t_list elementType =>
      let* inner := get_list_type self elementType in
      Ok ("List(" +:+ inner +:+ ")")
  | other => Ok (which other)
  end.

(** [field.proto.slot.type.which()] and the branches that follow it: a field
    without a slot ends the run there. *)
Definition resolve_field (self : t) (field : Field) : Result string :=
  match field with
  | f_slot type_ => resolve_type self type_
  | f_group _ => Raise KjException
  end.

(** The loop of [parse_struct], [res] being the dict built so far. *)
Fixpoint parse_struct_loop (self : t) (fields : list (string * Field))
    (res : dict string) : Result (dict string) :=
  match fields with
  | [] => Ok res
  | (name, field) :: rest =>
      let* type_ := resolve_field self field in
      let* key := cap name in
      parse_struct_loop self rest (dict_set res key type_)
  end.

Definition parse_struct (self : t) (fields : list (string * Field))
    : Result (dict string) :=
  parse_struct_loop self fields [].

(** [[cap(enumerant) for enumerant in enumerants]] *)
Fixpoint cap_all (enumerants : list string) : Result (list string) :=
  match enumerants with
  | [] => Ok []
  | enumerant :: rest =>
      let* c := cap enumerant in
      let* cs := cap_all rest in
      Ok (c :: cs)
  end.

(** One iteration of the loop of [parse]. *)
Definition parse_step (self : t) (name : string) (module : SchemaAttr)
    : Result t :=
  match module with
  | StructModule id fields =>
      let self1 := mk (<[id := name]> (struct_ids self)) (enum_ids self)
                      (nodes self) in
      let* res := parse_struct self1 fields in
      Ok (mk (struct_ids self1) (enum_ids self1)
             (dict_set (nodes self1) name (NDict res)))
  | EnumModule id enumerants =>
      let self1 := mk (struct_ids self) (<[id := name]> (enum_ids self))
                      (nodes self) in
      let* capped := cap_all enumerants in
      Ok (mk (struct_ids self1) (enum_ids self1)
             (dict_set (nodes self1) name (NList (tl capped))))
  | OtherAttr => Ok self
  end.

Fixpoint parse_loop (self : t) (schema : Schema) : Result t :=
  match schema with
  | [] => Ok self
  | (name, module) :: rest =>
      let* self' := parse_step self name module in
      parse_loop self' rest
  end.

Section Load.
(** [capnp.load], the schema compiler's loader. *)
Variable capnp_load : string -> Result Schema.

Definition parse (self : t) (file_path : string) : Result (dict Node) :=
  let* schema := capnp_load file_path in
  let* self' := parse_loop self schema in
  Ok (nodes self').
End Load.

End Parser.

(** ** class Generator *)

Module Generator.

Record t : Type := mk {
  nodes : dict Node;
  enum_names : list string;
  struct_names : list string
}.

Definition is_list (content : Node) : bool :=
  match content with NList _ => true | NDict _ => false end.

Definition is_dict (content : Node) : bool :=
  match content with NDict _ => true | NList _ => false end.

(** [__init__] *)
Definition init (nodes : dict Node) : t :=
  mk nodes
     (map fst (List.filter (fun nc => is_list (snd nc)) nodes))
     (map fst (List.filter (fun nc => is_dict (snd nc)) nodes)).

Definition is_enum (self : t) (node : string) : bool :=
  match dict_get (nodes self) node with
  | Some content => is_list content
  | None => false
  end.

Definition is_struct (self : t) (node : string) : bool :=
  match dict_get (nodes self) node with
  | Some content => is_dict content
  | None => false
  end.

Definition is_basic_type (node : string) : bool :=
  dict_mem CAPNP_BASIC_TYPES node.

(** [CAPNP_BASIC_TYPES[type_]], read only under [is_basic_type type_]. *)
Definition basic_type (type_ : string) : string :=
  match dict_get CAPNP_BASIC_TYPES type_ with
  | Some host => host
  | None => ""
  end.

(** [[f(name, type_) for name, type_ in items if p(type_)]] *)
Definition comprehension (f : string -> string -> string) (p : string -> bool)
    (items : dict string) : list string :=
  map (fun nt => f (fst nt) (snd nt)) (List.filter (fun nt => p (snd nt)) items).

(** [self.nodes[struct_name].items()] *)
Definition items (self : t) (struct_name : string) : Result (dict string) :=
  let* content := subscript (nodes self) struct_name in
  match content with
  | NDict fields => Ok fields
  | NList _ => Raise AttributeError
  end.

Definition generate_reader_constructors (name : string) : list string :=
  [ "Reader(" +:+ BASE_NAMESPACE +:+ "::" +:+ name +:+ "::Reader r) : "
      +:+ BASE_NAMESPACE +:+ "::" +:+ name +:+ "::Reader(r) {}";
    "Reader() = default;" ].

Definition generate_builder_constructors (name : string) : list string :=
  [ "Builder(" +:+ BASE_NAMESPACE +:+ "::" +:+ name +:+ "::Builder b) : "
      +:+ BASE_NAMESPACE +:+ "::" +:+ name
      +:+ "::Builder(b), Reader(b.asReader()) {}" ].

Definition generate_builder_operators : list string :=
  [ "Builder* operator->() { return this; }";
    "Builder& operator*() { return *this; }" ].

Definition generate_capnp_base_reader_method (name : string) : string :=
  "const " +:+ BASE_NAMESPACE +:+ "::" +:+ name
    +:+ "::Reader& GetCapnpBase() const { return *this; }".

Definition generate_capnp_base_builder_method (name : string) : string :=
  "const " +:+ BASE_NAMESPACE +:+ "::" +:+ name
    +:+ "::Builder& GetCapnpBase() const { return *this; }".

Definition using_template (name field type_ : string) : string :=
  "using " +:+ BASE_NAMESPACE +:+ "::" +:+ name +:+ "::Builder::get" +:+ field
    +:+ ";".

Definition generate_using_builder_methods (self : t) (name : string)
    (fields : dict string) : string :=
  let sep := nl +:+ spaces 8 in
  let usings := comprehension (using_template name) (is_struct self) fields in
  join sep usings.

Definition has_struct_template (name type_ : string) : string :=
  "bool Has" +:+ name +:+ "() const { return has" +:+ name +:+ "(); }".

Definition has_enum_template (name type_ : string) : string :=
  "bool Has" +:+ name +:+ "() const { return get" +:+ name +:+ "() != "
    +:+ BASE_NAMESPACE +:+ "::" +:+ type_ +:+ "::NOT_SET; }".

Definition has_basic_template (name type_ : string) : string :=
  "bool Has" +:+ name +:+ "() const { return get" +:+ name +:+ "() != 0; }".

Definition generate_has_methods (self : t) (struct_name : string)
    : Result (list string) :=
  let* fields := items self struct_name in
  let struct := comprehension has_struct_template (is_struct self) fields in
  let enum := comprehension has_enum_template (is_enum self) fields in
  let basic := comprehension has_basic_template is_basic_type fields in
  Ok (struct ++ enum ++ basic).

(** [template.format(name=name, type_=type_)] of [generate_get_methods] *)
Definition get_template (name type_ : string) : string :=
  type_ +:+ " Get" +:+ name +:+ "() const { return get" +:+ name +:+ "(); }".

Definition get_enum_template (name type_ : string) : string :=
  type_ +:+ " Get" +:+ name +:+ "() const { return static_cast<" +:+ type_
    +:+ ">(static_cast<size_t>(get" +:+ name +:+ "()) - 1); }".

Definition generate_get_methods (self : t) (struct_name : string)
    : Result (list string) :=
  let* fields := items self struct_name in
  let basic := comprehension (fun name type_ => get_template name (basic_type type_))
                             is_basic_type fields in
  let struct := comprehension (fun name type_ => get_template name (type_ +:+ "::Reader"))
                              (is_struct self) fields in
  let enum := comprehension get_enum_template (is_enum self) fields in
  Ok (basic ++ struct ++ enum).

Definition set_basic_template (name type_ : string) : string :=
  "void Set" +:+ name +:+ "(const " +:+ type_ +:+ "& value) { return set"
    +:+ name +:+ "(value); }".

Definition set_struct_template (name type_ : string) : string :=
  "void Set" +:+ name +:+ "(const " +:+ type_ +:+ "::Reader& value) { return set"
    +:+ name +:+ "(value.GetCapnpBase()); }".

Definition set_enum_template (name type_ base_ns : string) : string :=
  "void Set" +:+ name +:+ "(const " +:+ type_ +:+ "& value) { return set"
    +:+ name +:+ "(static_cast<" +:+ base_ns +:+ "::" +:+ type_
    +:+ ">(static_cast<size_t>(value) + 1)); }".

Definition generate_set_methods (self : t) (struct_name : string)
    : Result (list string) :=
  let* fields := items self struct_name in
  let basic := comprehension (fun name type_ => set_basic_template name (basic_type type_))
                             is_basic_type fields in
  let struct := comprehension set_struct_template (is_struct self) fields in
  let enum := comprehension (fun name type_ => set_enum_template name type_ BASE_NAMESPACE)
                            (is_enum self) fields in
  Ok (basic ++ struct ++ enum).

Definition mutable_template (name type_ : string) : string :=
  type_ +:+ "::Builder Mutable" +:+ name +:+ "() { return get" +:+ name +:+ "(); }".

Definition generate_mutable_methods (self : t) (struct_name : string)
    : Result (list string) :=
  let* fields := items self struct_name in
  Ok (comprehension mutable_template (is_struct self) fields).

Definition generate_reader (self : t) (name : string) (fields : dict string)
    : Result string :=
  let sep := nl +:+ spaces 8 in
  let* gets := generate_get_methods self name in
  let* has := generate_has_methods self name in
  let methods := generate_reader_constructors name ++ gets ++ has
                   ++ [generate_capnp_base_reader_method name] in
  Ok (join sep methods).

Definition generate_builder (self : t) (name : string) (fields : dict string)
    : Result string :=
  let sep := nl +:+ spaces 8 in
  let* sets := generate_set_methods self name in
  let* mutables := generate_mutable_methods self name in
  let methods := generate_builder_constructors name ++ generate_builder_operators
                   ++ sets ++ mutables
                   ++ [generate_capnp_base_builder_method name] in
  Ok (join sep methods).

Definition generate_struct (self : t) (name : string) (fields : dict string)
    : Result string :=
  let* reader := generate_reader self name fields in
  let usings := generate_using_builder_methods self name fields in
  let* builder := generate_builder self name fields in
  Ok (nl +:+ "struct " +:+ name +:+ " {" +:+ nl
      +:+ "    struct Reader : private " +:+ BASE_NAMESPACE +:+ "::" +:+ name
      +:+ "::Reader {" +:+ nl
      +:+ "    public:" +:+ nl
      +:+ "        " +:+ reader +:+ nl
      +:+ "    };" +:+ nl
      +:+ "    " +:+ nl
      +:+ "    struct Builder : private " +:+ BASE_NAMESPACE +:+ "::" +:+ name
      +:+ "::Builder, public Reader {" +:+ nl
      +:+ "    private:" +:+ nl
      +:+ "        " +:+ usings +:+ nl
      +:+ "    public:" +:+ nl
      +:+ "        " +:+ builder +:+ nl
      +:+ "    };" +:+ nl
      +:+ "};" +:+ nl
      +:+ spaces 12).

Definition generate_enum (name : string) (enumerants : list string) : string :=
  let sep := "," +:+ nl +:+ spaces 4 in
  nl +:+ "enum class " +:+ name +:+ " {" +:+ nl
    +:+ "    " +:+ join sep enumerants +:+ "," +:+ nl
    +:+ "};" +:+ nl
    +:+ spaces 12.

(** The loop of [generate], [res] being the text built so far. *)
Fixpoint generate_loop (self : t) (nodes : dict Node) (res : string)
    : Result string :=
  match nodes with
  | [] => Ok res
  | (node, content) :: rest =>
      match content with
      | NList enumerants =>
          generate_loop self rest (res +:+ generate_enum node enumerants)
      | NDict fields =>
          let* code := generate_struct self node fields in
          generate_loop self rest (res +:+ code)
      end
  end.

Definition generate (self : t) (nodes : dict Node) : Result string :=
  generate_loop self nodes "".

End Generator.

(** ** main *)

Definition SPEC_FILE : string := "test/trangequery.capnp".

(** What a run leaves behind: the text printed and the exception, if any,
    that ended it. *)
Record Outcome : Type := mkOutcome {
  stdout : string;
  raised : option Exception
}.

(** [SPEC_FILE if len(sys.argv) < 2 else sys.argv[1]] *)
Definition schema_path (argv : list string) : string :=
  if (length argv <? 2)%nat then SPEC_FILE else nth 1 argv "".

Section Main.
Variable capnp_load : string -> Result Schema.

Definition main (argv : list string) : Outcome :=
  let p := Parser.init in
  match Parser.parse capnp_load p (schema_path argv) with
  | Raise e => mkOutcome "" (Some e)
  | Ok nodes =>
      let g := Generator.init nodes in
      match Generator.generate g nodes with
      | Raise e => mkOutcome "" (Some e)
      | Ok text => mkOutcome (text +:+ nl) None
      end
  end.
End Main.

(** ** The emitted accessors of an enumeration field

    The bodies emitted by [generate_set_methods], [generate_get_methods] and
    [generate_has_methods] for a field of enumeration type, read as functions
    on integers.  The widths of [size_t], of the base enumeration's unsigned
    underlying type and of the wrapper enumeration's signed underlying type
    are parameters, as is the base enumeration itself, which the schema
    compiler declares: its enumerators in declaration order, the first one
    having raw value 0. *)

Module Wrapper.

Section Widths.
Variables size_bits base_bits enum_bits : Z.

(** [static_cast<size_t>(x)] *)
Definition to_size_t (x : Z) : Z := (x mod 2 ^ size_bits)%Z.

(** [static_cast<BASE_NAMESPACE::type_>(x)] *)
Definition to_base (x : Z) : Z := (x mod 2 ^ base_bits)%Z.

(** [static_cast<type_>(x)] *)
Definition to_enum (x : Z) : Z :=
  let m := (x mod 2 ^ enum_bits)%Z in
  if (m <? 2 ^ (enum_bits - 1))%Z then m else (m - 2 ^ enum_bits)%Z.

(** The raw value [Set<name>(value)] hands to [set<name>]:
    [static_cast<base_ns::type_>(static_cast<size_t>(value) + 1)]. *)
Definition SetEnum (value : Z) : Z :=
  to_base (to_size_t (to_size_t value + 1)%Z).

(** What [Get<name>()] returns when [get<name>()] is [raw]:
    [static_cast<type_>(static_cast<size_t>(get<name>()) - 1)]. *)
Definition GetEnum (raw : Z) : Z :=
  to_enum (to_size_t (to_size_t raw - 1)%Z).
End Widths.

(** The raw value of enumerator [ident] of a base enumeration. *)
Fixpoint enumerator_from (first : Z) (base : list string) (ident : string)
    : option Z :=
  match base with
  | [] => None
  | e :: rest =>
      if String.eqb e ident then Some first
      else enumerator_from (first + 1)%Z rest ident
  end.

Definition enumerator_value (base : list string) (ident : string) : option Z :=
  enumerator_from 0 base ident.

(** What [Has<name>()] returns when [get<name>()] is [raw]:
    [get<name>() != BASE_NAMESPACE::type_::NOT_SET]; nothing when the base
    enumeration declares no such enumerator. *)
Definition HasEnum (base : list string) (raw : Z) : option bool :=
  match enumerator_value base "NOT_SET" with
  | Some not_set => Some (negb (raw =? not_set)%Z)
  | None => None
  end.

End Wrapper.

(** ** Vocabulary of the statements *)

(** [''.join(blocks)] *)
Definition concat_str (blocks : list string) : string :=
  fold_right String.append "" blocks.

(** The block a run of [generate] appends for one entry of the mapping. *)
Definition block_of (self : Generator.t) (entry : string * Node) (block : string)
    : Prop :=
  match snd entry with
  | NList enumerants => block = Generator.generate_enum (fst entry) enumerants
  | NDict fields => Generator.generate_struct self (fst entry) fields = Ok block
  end.

(** A reference the resolver looks up in an id index that lacks it. *)
Definition unregistered (self : Parser.t) (field : SlotType) : Prop :=
  match field with
  | t_struct typeId => Parser.struct_ids self !! typeId = None
  | t_enum typeId => Parser.enum_ids self !! typeId = None
  | t_list (t_struct typeId) => Parser.struct_ids self !! typeId = None
  | _ => False
  end.

(** Every field name and every enumerant name of the schema is non-empty. *)
Definition names_nonempty (schema : Schema) : Prop :=
  Forall (fun entry =>
            match snd entry with
            | StructModule _ fields => Forall (fun f => fst f <> "") fields
            | EnumModule _ enumerants => Forall (fun e => e <> "") enumerants
            | OtherAttr => True
            end) schema.

(** The parser state in which the fields of struct [name] are resolved. *)
Definition registered_struct (self : Parser.t) (id : Z) (name : string) : Parser.t :=
  Parser.mk (<[id := name]> (Parser.struct_ids self)) (Parser.enum_ids self)
            (Parser.nodes self).

(** [s.isascii()] *)
Definition is_ascii (s : string) : bool :=
  forallb (fun c => (nat_of_ascii c <? 128)%nat) (list_ascii_of_string s).

(** A name as [cap] leaves it: non-empty, its first character unchanged by
    [upper]. *)
Definition capitalised (s : string) : Prop :=
  match s with
  | EmptyString => False
  | String c _ => upper c = c
  end.

(** The entries of [schema.__dict__] that [parse] acts on. *)
Definition is_type_module (module : SchemaAttr) : bool :=
  match module with
  | StructModule _ _ | EnumModule _ _ => true
  | OtherAttr => false
  end.

(** The kinds whose [which()] is a key of [CAPNP_BASIC_TYPES]. *)
Definition is_primitive (t : SlotType) : bool :=
  match t with
  | t_list _ | t_enum _ | t_struct _ | t_interface _ | t_anyPointer => false
  | _ => true
  end.

(** The kinds that [parse_struct] keeps under the name [which()] gives. *)
Definition is_plain (t : SlotType) : bool :=
  match t with
  | t_list _ | t_enum _ | t_struct _ => false
  | _ => true
  end.

(** What a resolved field type can be: the name of a record of the mapping
    (or of the record being resolved, [pending]), the name of an
    enumeration of the mapping, a kind name, or [List(...)] around a
    record name or a kind name. *)
Definition type_ok (nodes : dict Node) (pending : option string) (type_ : string)
    : Prop :=
  Some type_ = pending \/
  (exists fields, dict_get nodes type_ = Some (NDict fields)) \/
  (exists enumerants, dict_get nodes type_ = Some (NList enumerants)) \/
  (exists t, is_plain t = true /\ type_ = which t) \/
  (exists inner,
     type_ = "List(" +:+ inner +:+ ")" /\
     (Some inner = pending \/
      (exists fields, dict_get nodes inner = Some (NDict fields)) \/
      (exists t, inner = which t))).

(** The parser state refers to nothing outside its mapping, except for the
    record being resolved. *)
Definition closed (self : Parser.t) (pending : option string) : Prop :=
  (forall id n, Parser.struct_ids self !! id = Some n ->
     Some n = pending \/ exists fields, dict_get (Parser.nodes self) n = Some (NDict fields)) /\
  (forall id n, Parser.enum_ids self !! id = Some n ->
     exists enumerants, dict_get (Parser.nodes self) n = Some (NList enumerants)) /\
  (forall sname fields key type_,
     In (sname, NDict fields) (Parser.nodes self) -> In (key, type_) fields ->
     type_ok (Parser.nodes self) None type_).

(** [piece in text] *)
Definition occurs (piece text : string) : Prop :=
  exists before after, text = before +:+ piece +:+ after.

(** The ids under which the struct modules, and the enum modules, of a
    schema are declared. *)
Definition declared_struct_ids (schema : Schema) : list Z :=
  flat_map (fun entry => match snd entry with
                         | StructModule id _ => [id]
                         | _ => []
                         end) schema.

Definition declared_enum_ids (schema : Schema) : list Z :=
  flat_map (fun entry => match snd entry with
                         | EnumModule id _ => [id]
                         | _ => []
                         end) schema.

(** ** Sample inputs *)

Definition sample_schema : Schema :=
  [ ("Color", EnumModule 10 ["notSet"; "red"; "green"]);
    ("Inner", StructModule 20 [("x", f_slot t_int32)]);
    ("Outer", StructModule 30
       [ ("color", f_slot (t_enum 10)); ("inner", f_slot (t_struct 20)); ("count", f_slot t_uint64);
         ("items", f_slot (t_list (t_struct 20))); ("nums", f_slot (t_list t_int32));
         ("name", f_slot t_text) ]) ].

Definition sample_nodes : dict Node :=
  [ ("Color", NList ["Red"; "Green"]);
    ("Inner", NDict [("X", "int32")]);
    ("Outer", NDict
       [ ("Color", "Color"); ("Inner", "Inner"); ("Count", "uint64");
         ("Items", "List(Inner)"); ("Nums", "List(int32)"); ("Name", "text") ]) ].

(** A loader that finds the given schema at every path. *)
Definition load_const (schema : Schema) : string -> Result Schema :=
  fun _ => Ok schema.

(** * Properties *)

(** ** Strings, dicts and the error monad *)

Lemma append_cons (c : ascii) (s t : string) :
  String c s +:+ t = String c (s +:+ t).
Proof. reflexivity. Qed.

Lemma append_nil_l (s : string) : "" +:+ s = s.
Proof. reflexivity. Qed.

Lemma append_nil_r (s : string) : s +:+ "" = s.
Proof.
  induction s as [|c s IH]; [reflexivity|].
  now rewrite append_cons, IH.
Qed.

Lemma append_assoc (a b c : string) : (a +:+ b) +:+ c = a +:+ (b +:+ c).
Proof.
  induction a as [|x a IH]; [reflexivity|].
  now rewrite !append_cons, IH.
Qed.

Lemma concat_str_app (xs ys : list string) :
  concat_str (xs ++ ys) = concat_str xs +:+ concat_str ys.
Proof.
  induction xs as [|x xs IH]; [reflexivity|].
  cbn [app concat_str fold_right]. fold (concat_str (xs ++ ys)). fold (concat_str xs).
  now rewrite IH, append_assoc.
Qed.

Lemma Ok_inj {A} (a b : A) : Ok a = Ok b -> a = b.
Proof. now intros [= ->]. Qed.

Lemma bind_Ok_inv {A B} (m : Result A) (k : A -> Result B) (b : B) :
  bind m k = Ok b -> exists a, m = Ok a /\ k a = Ok b.
Proof. destruct m as [a|e]; simpl; [eauto | discriminate]. Qed.

Lemma bind_Raise_inv {A B} (m : Result A) (k : A -> Result B) (e : Exception) :
  bind m k = Raise e -> m = Raise e \/ exists a, m = Ok a /\ k a = Raise e.
Proof. destruct m as [a|e']; simpl; [eauto | intros [= ->]; now left]. Qed.

Section DictFacts.
Context {V : Type}.
Implicit Types (d : dict V) (k : string) (v : V).

Lemma dict_get_set_eq d k v : dict_get (dict_set d k v) k = Some v.
Proof.
  induction d as [|[k' v'] d IH]; simpl.
  - now rewrite String.eqb_refl.
  - destruct (String.eqb_spec k' k) as [->|Hne]; simpl.
    + now rewrite String.eqb_refl.
    + destruct (String.eqb_spec k' k); [contradiction | exact IH].
Qed.

Lemma dict_get_set_ne d k k0 v :
  k <> k0 -> dict_get (dict_set d k v) k0 = dict_get d k0.
Proof.
  intros Hne. induction d as [|[k' v'] d IH]; simpl.
  - destruct (String.eqb_spec k k0); [contradiction | reflexivity].
  - destruct (String.eqb_spec k' k) as [->|Hk]; simpl.
    + destruct (String.eqb_spec k k0); [contradiction | reflexivity].
    + now rewrite IH.
Qed.

Lemma dict_get_Some_In d k v : dict_get d k = Some v -> In (k, v) d.
Proof.
  induction d as [|[k' v'] d IH]; simpl; [discriminate|].
  destruct (String.eqb_spec k' k) as [->|Hk].
  - intros [= ->]. now left.
  - intros H. right. now apply IH.
Qed.

Lemma dict_get_None_keys d k : dict_get d k = None -> ~ In k (dict_keys d).
Proof.
  induction d as [|[k' v'] d IH]; simpl; [tauto|].
  destruct (String.eqb_spec k' k) as [->|Hk]; [discriminate|].
  intros H [Heq|Hin]; [contradiction | now apply IH].
Qed.

Lemma dict_keys_In d k v : In (k, v) d -> In k (dict_keys d).
Proof. intros H. apply (in_map fst) in H. exact H. Qed.

Lemma dict_get_In d k v :
  List.NoDup (dict_keys d) -> In (k, v) d -> dict_get d k = Some v.
Proof.
  induction d as [|[k' v'] d IH]; simpl; [tauto|].
  intros Hnd [Heq|Hin].
  - injection Heq as -> ->. now rewrite String.eqb_refl.
  - apply List.NoDup_cons_iff in Hnd as [Hnotin Hnd].
    destruct (String.eqb_spec k' k) as [->|Hk].
    + exfalso. apply Hnotin. now apply dict_keys_In with v.
    + now apply IH.
Qed.

Lemma dict_set_keys_In d k v k0 :
  In k0 (dict_keys (dict_set d k v)) -> k0 = k \/ In k0 (dict_keys d).
Proof.
  induction d as [|[k' v'] d IH]; simpl.
  - intros [<-|[]]. now left.
  - destruct (String.eqb_spec k' k) as [->|Hk]; simpl.
    + tauto.
    + intros [<-|Hin]; [tauto|]. destruct (IH Hin); tauto.
Qed.

Lemma dict_set_NoDup d k v :
  List.NoDup (dict_keys d) -> List.NoDup (dict_keys (dict_set d k v)).
Proof.
  induction d as [|[k' v'] d IH]; simpl; intros Hnd.
  - constructor; [simpl; tauto | constructor].
  - apply List.NoDup_cons_iff in Hnd as [Hnotin Hnd].
    destruct (String.eqb_spec k' k) as [->|Hk]; simpl.
    + now constructor.
    + constructor; [|now apply IH].
      intros Hin. destruct (dict_set_keys_In _ _ _ _ Hin); congruence.
Qed.
End DictFacts.

(** ** The resolver *)

Lemma cap_all_Forall2 (enumerants capped : list string) :
  Parser.cap_all enumerants = Ok capped ->
  Forall2 (fun e c => cap e = Ok c) enumerants capped.
Proof.
  revert capped. induction enumerants as [|e es IH]; simpl; intros capped H.
  - injection H as <-. constructor.
  - apply bind_Ok_inv in H as (c & Hc & H).
    apply bind_Ok_inv in H as (cs & Hcs & H).
    injection H as <-. constructor; [exact Hc | now apply IH].
Qed.

Lemma parse_step_nodes_other self name module self' k :
  Parser.parse_step self name module = Ok self' ->
  k <> name ->
  dict_get (Parser.nodes self') k = dict_get (Parser.nodes self) k.
Proof.
  intros H Hne. destruct module as [id fields|id enumerants|]; simpl in H.
  - apply bind_Ok_inv in H as (res & _ & H). injection H as <-. simpl.
    apply dict_get_set_ne. congruence.
  - apply bind_Ok_inv in H as (capped & _ & H). injection H as <-. simpl.
    apply dict_get_set_ne. congruence.
  - now injection H as <-.
Qed.

Lemma parse_loop_nodes_other schema : forall self self' k,
  Parser.parse_loop self schema = Ok self' ->
  ~ In k (map fst schema) ->
  dict_get (Parser.nodes self') k = dict_get (Parser.nodes self) k.
Proof.
  induction schema as [|[name module] rest IH]; simpl; intros self self' k H Hk.
  - now injection H as <-.
  - apply bind_Ok_inv in H as (self1 & Hstep & H).
    rewrite (IH _ _ _ H) by tauto.
    apply (parse_step_nodes_other _ _ _ _ _ Hstep). intros ->. tauto.
Qed.

Lemma parse_loop_lookup_enum schema : forall self self' name id enumerants,
  List.NoDup (map fst schema) ->
  Parser.parse_loop self schema = Ok self' ->
  In (name, EnumModule id enumerants) schema ->
  exists capped,
    Parser.cap_all enumerants = Ok capped /\
    dict_get (Parser.nodes self') name = Some (NList (tl capped)).
Proof.
  induction schema as [|[name0 module] rest IH]; simpl;
    intros self self' name id enumerants Hnd H Hin; [contradiction|].
  apply List.NoDup_cons_iff in Hnd as [Hfresh Hnd].
  apply bind_Ok_inv in H as (self1 & Hstep & H).
  destruct Hin as [Heq|Hin].
  - injection Heq as -> ->. simpl in Hstep.
    apply bind_Ok_inv in Hstep as (capped & Hcap & Hstep). injection Hstep as <-.
    exists capped. split; [exact Hcap|].
    rewrite (parse_loop_nodes_other _ _ _ _ H Hfresh). simpl.
    apply dict_get_set_eq.
  - now apply (IH self1 self' name id enumerants).
Qed.

Lemma parse_step_NoDup self name module self' :
  List.NoDup (dict_keys (Parser.nodes self)) ->
  Parser.parse_step self name module = Ok self' ->
  List.NoDup (dict_keys (Parser.nodes self')).
Proof.
  intros Hnd H. destruct module as [id fields|id enumerants|]; simpl in H.
  - apply bind_Ok_inv in H as (res & _ & H). injection H as <-. simpl.
    now apply dict_set_NoDup.
  - apply bind_Ok_inv in H as (capped & _ & H). injection H as <-. simpl.
    now apply dict_set_NoDup.
  - now injection H as <-.
Qed.

Lemma parse_loop_NoDup schema : forall self self',
  List.NoDup (dict_keys (Parser.nodes self)) ->
  Parser.parse_loop self schema = Ok self' ->
  List.NoDup (dict_keys (Parser.nodes self')).
Proof.
  induction schema as [|[name module] rest IH]; simpl; intros self self' Hnd H.
  - now injection H as <-.
  - apply bind_Ok_inv in H as (self1 & Hstep & H).
    apply (IH self1 self'); [|exact H].
    now apply (parse_step_NoDup self name module).
Qed.

(** ** The generator *)

Lemma comprehension_In f p (items : dict string) name type_ :
  In (name, type_) items -> p type_ = true ->
  In (f name type_) (Generator.comprehension f p items).
Proof.
  intros Hin Hp. unfold Generator.comprehension.
  apply in_map_iff. exists (name, type_). split; [reflexivity|].
  apply List.filter_In. now split.
Qed.

Lemma items_Ok self struct_name fields :
  dict_get (Generator.nodes self) struct_name = Some (NDict fields) ->
  Generator.items self struct_name = Ok fields.
Proof. intros H. unfold Generator.items, subscript. now rewrite H. Qed.

Lemma generate_struct_Ok self name fields :
  dict_get (Generator.nodes self) name = Some (NDict fields) ->
  exists code, Generator.generate_struct self name fields = Ok code.
Proof.
  intros H. apply items_Ok in H.
  unfold Generator.generate_struct, Generator.generate_reader,
    Generator.generate_builder, Generator.generate_get_methods,
    Generator.generate_has_methods, Generator.generate_set_methods,
    Generator.generate_mutable_methods.
  rewrite H. simpl. eauto.
Qed.

Lemma generate_loop_blocks self : forall (nodes : dict Node) (res : string),
  (forall name fields, In (name, NDict fields) nodes ->
     dict_get (Generator.nodes self) name = Some (NDict fields)) ->
  exists blocks,
    Forall2 (block_of self) nodes blocks /\
    Generator.generate_loop self nodes res = Ok (res +:+ concat_str blocks).
Proof.
  induction nodes as [|[node content] rest IH]; intros res Hself.
  - exists []. split; [constructor|]. simpl. now rewrite append_nil_r.
  - assert (Hrest : forall name fields, In (name, NDict fields) rest ->
              dict_get (Generator.nodes self) name = Some (NDict fields))
      by (intros; apply Hself; now right).
    destruct content as [fields|enumerants].
    + destruct (generate_struct_Ok self node fields) as [code Hcode];
        [apply Hself; now left|].
      destruct (IH (res +:+ code) Hrest) as (blocks & Hblocks & Hloop).
      exists (code :: blocks). split; [constructor; [exact Hcode | exact Hblocks]|].
      simpl. rewrite Hcode. simpl. rewrite Hloop. now rewrite append_assoc.
    + destruct (IH (res +:+ Generator.generate_enum node enumerants) Hrest)
        as (blocks & Hblocks & Hloop).
      exists (Generator.generate_enum node enumerants :: blocks).
      split; [constructor; [reflexivity | exact Hblocks]|].
      simpl. rewrite Hloop. now rewrite append_assoc.
Qed.

Lemma generate_blocks (nodes : dict Node) :
  List.NoDup (dict_keys nodes) ->
  exists blocks,
    Forall2 (block_of (Generator.init nodes)) nodes blocks /\
    Generator.generate (Generator.init nodes) nodes = Ok (concat_str blocks).
Proof.
  intros Hnd.
  destruct (generate_loop_blocks (Generator.init nodes) nodes "") as (blocks & Hb & H).
  - intros name fields Hin. simpl. now apply dict_get_In.
  - exists blocks. split; [exact Hb|]. unfold Generator.generate. now rewrite H.
Qed.

Lemma blocks_split self (nodes : dict Node) blocks entry :
  Forall2 (block_of self) nodes blocks ->
  In entry nodes ->
  exists before block after,
    block_of self entry block /\
    concat_str blocks = before +:+ block +:+ after.
Proof.
  induction 1 as [|e b es bs Hb Hrest IH]; simpl; [contradiction|].
  intros [->|Hin].
  - exists "", b, (concat_str bs). split; [exact Hb | reflexivity].
  - destruct (IH Hin) as (before & block & after & Hblock & Heq).
    exists (b +:+ before), block, after. split; [exact Hblock|].
    change (concat_str (b :: bs)) with (b +:+ concat_str bs).
    now rewrite Heq, append_assoc.
Qed.

(** The sample schema resolves to the sample mapping. *)
Example sample_schema_resolves :
  Parser.parse (load_const sample_schema) Parser.init SPEC_FILE = Ok sample_nodes.
Proof. reflexivity. Qed.

Ltac nodup_keys :=
  repeat (apply List.NoDup_cons; [simpl; intuition discriminate|]);
  apply List.NoDup_nil.

(** ** Claims about the generator's output *)

Lemma generate_struct_text g name fields block :
  Generator.generate_struct g name fields = Ok block ->
  exists gets has sets mutables,
    Generator.generate_get_methods g name = Ok gets /\
    Generator.generate_has_methods g name = Ok has /\
    Generator.generate_set_methods g name = Ok sets /\
    Generator.generate_mutable_methods g name = Ok mutables /\
    block
      = nl +:+ "struct " +:+ name +:+ " {" +:+ nl
          +:+ "    struct Reader : private NKikimrCapnProto_::" +:+ name
          +:+ "::Reader {" +:+ nl
          +:+ "    public:" +:+ nl
          +:+ "        "
          +:+ join (nl +:+ "        ")
                ([ "Reader(NKikimrCapnProto_::" +:+ name
                     +:+ "::Reader r) : NKikimrCapnProto_::" +:+ name
                     +:+ "::Reader(r) {}";
                   "Reader() = default;" ]
                 ++ gets ++ has
                 ++ [ "const NKikimrCapnProto_::" +:+ name
                        +:+ "::Reader& GetCapnpBase() const { return *this; }" ])
          +:+ nl
          +:+ "    };" +:+ nl
          +:+ "    " +:+ nl
          +:+ "    struct Builder : private NKikimrCapnProto_::" +:+ name
          +:+ "::Builder, public Reader {" +:+ nl
          +:+ "    private:" +:+ nl
          +:+ "        "
          +:+ join (nl +:+ "        ")
                (map (fun nt => "using NKikimrCapnProto_::" +:+ name
                                  +:+ "::Builder::get" +:+ fst nt +:+ ";")
                     (List.filter (fun nt => Generator.is_struct g (snd nt)) fields))
          +:+ nl
          +:+ "    public:" +:+ nl
          +:+ "        "
          +:+ join (nl +:+ "        ")
                ([ "Builder(NKikimrCapnProto_::" +:+ name
                     +:+ "::Builder b) : NKikimrCapnProto_::" +:+ name
                     +:+ "::Builder(b), Reader(b.asReader()) {}";
                   "Builder* operator->() { return this; }";
                   "Builder& operator*() { return *this; }" ]
                 ++ sets ++ mutables
                 ++ [ "const NKikimrCapnProto_::" +:+ name
                        +:+ "::Builder& GetCapnpBase() const { return *this; }" ])
          +:+ nl
          +:+ "    };" +:+ nl
          +:+ "};" +:+ nl
          +:+ "            ".
Proof.
  unfold Generator.generate_struct, Generator.generate_reader,
    Generator.generate_builder. intros H.
  apply bind_Ok_inv in H as (reader & Hreader & H).
  apply bind_Ok_inv in H as (builder & Hbuilder & H).
  apply bind_Ok_inv in Hreader as (gets & Hgets & Hreader).
  apply bind_Ok_inv in Hreader as (has & Hhas & Hreader).
  apply bind_Ok_inv in Hbuilder as (sets & Hsets & Hbuilder).
  apply bind_Ok_inv in Hbuilder as (mutables & Hmutables & Hbuilder).
  apply Ok_inj in H, Hreader, Hbuilder. subst block reader builder.
  exists gets, has, sets, mutables. repeat (split; [assumption|]). reflexivity.
Qed.

(** C7. The text returned by [generate] for a resolved mapping (a dict, so
    with pairwise distinct names) is the concatenation, in the order of the
    mapping, of exactly one block per entry.  The block of an enumeration
    is the [enum class] block that lists its enumerants; the block of a
    record is the [struct] aggregate that holds a [Reader], with the
    constructors, the Get and Has methods and the base accessor, and a
    [Builder], with the using declarations, the constructor, the
    dereference operators, the Set and Mutable methods and the base
    accessor. *)
Theorem generate_one_block_per_type (nodes : dict Node) :
  List.NoDup (dict_keys nodes) ->
  let g := Generator.init nodes in
  exists blocks,
    Forall2
      (fun (entry : string * Node) (block : string) =>
         let name := fst entry in
         match snd entry with
         | NList enumerants =>
             block
               = nl +:+ "enum class " +:+ name +:+ " {" +:+ nl
                   +:+ "    " +:+ join ("," +:+ nl +:+ "    ") enumerants
                   +:+ "," +:+ nl
                   +:+ "};" +:+ nl
                   +:+ "            "
         | NDict fields =>
             exists gets has sets mutables,
               Generator.generate_get_methods g name = Ok gets /\
               Generator.generate_has_methods g name = Ok has /\
               Generator.generate_set_methods g name = Ok sets /\
               Generator.generate_mutable_methods g name = Ok mutables /\
               block
                 = nl +:+ "struct " +:+ name +:+ " {" +:+ nl
                     +:+ "    struct Reader : private NKikimrCapnProto_::" +:+ name
                     +:+ "::Reader {" +:+ nl
                     +:+ "    public:" +:+ nl
                     +:+ "        "
                     +:+ join (nl +:+ "        ")
                           ([ "Reader(NKikimrCapnProto_::" +:+ name
                                +:+ "::Reader r) : NKikimrCapnProto_::" +:+ name
                                +:+ "::Reader(r) {}";
                              "Reader() = default;" ]
                            ++ gets ++ has
                            ++ [ "const NKikimrCapnProto_::" +:+ name
                                   +:+ "::Reader& GetCapnpBase() const { return *this; }" ])
                     +:+ nl
                     +:+ "    };" +:+ nl
                     +:+ "    " +:+ nl
                     +:+ "    struct Builder : private NKikimrCapnProto_::" +:+ name
                     +:+ "::Builder, public Reader {" +:+ nl
                     +:+ "    private:" +:+ nl
                     +:+ "        "
                     +:+ join (nl +:+ "        ")
                           (map (fun nt => "using NKikimrCapnProto_::" +:+ name
                                             +:+ "::Builder::get" +:+ fst nt +:+ ";")
                                (List.filter
                                   (fun nt => Generator.is_struct g (snd nt)) fields))
                     +:+ nl
                     +:+ "    public:" +:+ nl
                     +:+ "        "
                     +:+ join (nl +:+ "        ")
                           ([ "Builder(NKikimrCapnProto_::" +:+ name
                                +:+ "::Builder b) : NKikimrCapnProto_::" +:+ name
                                +:+ "::Builder(b), Reader(b.asReader()) {}";
                              "Builder* operator->() { return this; }";
                              "Builder& operator*() { return *this; }" ]
                            ++ sets ++ mutables
                            ++ [ "const NKikimrCapnProto_::" +:+ name
                                   +:+ "::Builder& GetCapnpBase() const { return *this; }" ])
                     +:+ nl
                     +:+ "    };" +:+ nl
                     +:+ "};" +:+ nl
                     +:+ "            "
         end)
      nodes blocks /\
    length blocks = length nodes /\
    Generator.generate g nodes = Ok (concat_str blocks).
Proof.
  intros Hnd g. destruct (generate_blocks nodes Hnd) as (blocks & Hb & H).
  exists blocks. split; [|split; [|exact H]].
  - fold g in Hb. clear H Hnd. clearbody g.
    induction Hb as [|[name content] block rest blocks Hblock _ IH];
      constructor; [|exact IH].
    unfold block_of in Hblock. simpl in Hblock. simpl fst. simpl snd.
    destruct content as [fields|enumerants].
    + exact (generate_struct_text g name fields block Hblock).
    + exact Hblock.
  - symmetry. exact (Forall2_length _ _ _ Hb).
Qed.

(** The sample mapping: three blocks, the first an [enum class] block. *)
Lemma generate_one_block_per_type_witness :
  List.NoDup (dict_keys sample_nodes) /\
  exists blocks,
    length blocks = length sample_nodes /\
    Generator.generate (Generator.init sample_nodes) sample_nodes
      = Ok (concat_str blocks) /\
    nth_error blocks 0
      = Some (nl +:+ "enum class Color {" +:+ nl +:+ "    Red," +:+ nl
                +:+ "    Green," +:+ nl +:+ "};" +:+ nl +:+ "            ").
Proof.
  assert (Hnd : List.NoDup (dict_keys sample_nodes)) by (simpl; nodup_keys).
  split; [exact Hnd|].
  destruct (generate_one_block_per_type sample_nodes Hnd)
    as (blocks & Hblocks & Hlen & Hgen).
  exists blocks. split; [exact Hlen|]. split; [exact Hgen|].
  unfold sample_nodes in Hblocks.
  destruct blocks as [|block blocks]; [inversion Hblocks|].
  apply Forall2_cons_iff in Hblocks as [Hfirst _]. simpl in Hfirst.
  simpl. now rewrite Hfirst.
Defined.

Lemma generate_struct_nodes g1 g2 name fields :
  Generator.nodes g1 = Generator.nodes g2 ->
  Generator.generate_struct g1 name fields = Generator.generate_struct g2 name fields.
Proof.
  destruct g1 as [n1 e1 s1], g2 as [n2 e2 s2]. simpl. intros ->. reflexivity.
Qed.

(** C8. The generated text is a function of the resolved mapping alone: two
    generators holding the same mapping return the same result for the
    same argument, character for character, and two runs of the program
    whose resolution ends the same way leave the same output behind. *)
Theorem generate_deterministic :
  (forall (g1 g2 : Generator.t) (nodes : dict Node),
     Generator.nodes g1 = Generator.nodes g2 ->
     Generator.generate g1 nodes = Generator.generate g2 nodes) /\
  (forall (load1 load2 : string -> Result Schema) (argv1 argv2 : list string),
     Parser.parse load1 Parser.init (schema_path argv1)
       = Parser.parse load2 Parser.init (schema_path argv2) ->
     main load1 argv1 = main load2 argv2).
Proof.
  split.
  - intros g1 g2 nodes Heq. unfold Generator.generate. generalize "".
    induction nodes as [|[node content] rest IH]; intros res; [reflexivity|].
    destruct content as [fields|enumerants]; simpl.
    + rewrite (generate_struct_nodes g1 g2 node fields Heq).
      destruct (Generator.generate_struct g2 node fields); simpl;
        [apply IH | reflexivity].
    + apply IH.
  - intros load1 load2 argv1 argv2 Heq. unfold main. now rewrite Heq.
Qed.

(** A generator built by hand and a schema with other ids give the same text. *)
Lemma generate_deterministic_witness :
  let renumbered := [ ("Color", EnumModule 1 ["notSet"; "red"; "green"]);
                      ("Inner", StructModule 2 [("x", f_slot t_int32)]);
                      ("Outer", StructModule 3
                         [ ("color", f_slot (t_enum 1)); ("inner", f_slot (t_struct 2));
                           ("count", f_slot t_uint64); ("items", f_slot (t_list (t_struct 2)));
                           ("nums", f_slot (t_list t_int32)); ("name", f_slot t_text) ]) ] in
  (Generator.nodes (Generator.init sample_nodes)
     = Generator.nodes (Generator.mk sample_nodes [] []) /\
   Generator.generate (Generator.init sample_nodes) sample_nodes
     = Generator.generate (Generator.mk sample_nodes [] []) sample_nodes) /\
  (Parser.parse (load_const sample_schema) Parser.init (schema_path ["main.py"])
     = Parser.parse (load_const renumbered) Parser.init
         (schema_path ["main.py"; "other.capnp"]) /\
   main (load_const sample_schema) ["main.py"]
     = main (load_const renumbered) ["main.py"; "other.capnp"]).
Proof.
  intros renumbered. split.
  - split; [reflexivity|].
    apply (proj1 generate_deterministic (Generator.init sample_nodes)
             (Generator.mk sample_nodes [] []) sample_nodes).
    reflexivity.
  - assert (Hsame : Parser.parse (load_const sample_schema) Parser.init
                      (schema_path ["main.py"])
                    = Parser.parse (load_const renumbered) Parser.init
                        (schema_path ["main.py"; "other.capnp"]))
      by reflexivity.
    split; [exact Hsame|].
    exact (proj2 generate_deterministic (load_const sample_schema)
             (load_const renumbered) ["main.py"] ["main.py"; "other.capnp"] Hsame).
Defined.

(** C10. The enumeration block always has a comma after the joined member
    list.  An enumeration declared with the sentinel alone resolves to the
    empty list, and its block holds that comma and no member name. *)
Theorem enum_block_trailing_comma (name : string) (enumerants : list string) :
  Generator.generate_enum name enumerants
    = nl +:+ "enum class " +:+ name +:+ " {" +:+ nl
        +:+ "    " +:+ join ("," +:+ nl +:+ "    ") enumerants +:+ "," +:+ nl
        +:+ "};" +:+ nl +:+ "            " /\
  forall schema self' id sentinel,
    List.NoDup (map fst schema) ->
    Parser.parse_loop Parser.init schema = Ok self' ->
    In (name, EnumModule id [sentinel]) schema ->
    dict_get (Parser.nodes self') name = Some (NList []) /\
    Generator.generate_enum name []
      = nl +:+ "enum class " +:+ name +:+ " {" +:+ nl
          +:+ "    ," +:+ nl
          +:+ "};" +:+ nl +:+ "            ".
Proof.
  split; [reflexivity|].
  intros schema self' id sentinel Hnd Hparse Hin. split; [|reflexivity].
  destruct (parse_loop_lookup_enum _ _ _ _ _ _ Hnd Hparse Hin) as (capped & Hcap & Hget).
  rewrite Hget. simpl in Hcap.
  apply bind_Ok_inv in Hcap as (c & _ & Hcap). now injection Hcap as <-.
Qed.

(** An enumeration declared with the sentinel alone. *)
Lemma enum_block_trailing_comma_witness :
  let schema := [("Flag", EnumModule 7 ["notSet"])] in
  let self' := Parser.mk ∅ (<[7%Z := "Flag"]> ∅) [("Flag", NList [])] in
  List.NoDup (map fst schema) /\
  Parser.parse_loop Parser.init schema = Ok self' /\
  In ("Flag", EnumModule 7 ["notSet"]) schema /\
  dict_get (Parser.nodes self') "Flag" = Some (NList []) /\
  Generator.generate_enum "Flag" []
    = nl +:+ "enum class Flag {" +:+ nl +:+ "    ," +:+ nl +:+ "};" +:+ nl
        +:+ "            ".
Proof.
  intros schema self'.
  assert (Hnd : List.NoDup (map fst schema)) by (simpl; nodup_keys).
  assert (Hparse : Parser.parse_loop Parser.init schema = Ok self') by reflexivity.
  assert (Hin : In ("Flag", EnumModule 7 ["notSet"]) schema) by (now left).
  split; [exact Hnd|]. split; [exact Hparse|]. split; [exact Hin|].
  exact (proj2 (enum_block_trailing_comma "Flag" []) schema self' 7%Z "notSet"
           Hnd Hparse Hin).
Defined.

(** ** Claims about the resolver *)



(** C1, as stated, fails: the resolved names are not the declared ones.
    Declared [x0, x1, x2] resolve to [X1, X2]. *)
Lemma enum_names_not_kept_counterexample :
  let schema := [("E", EnumModule 1 ["x0"; "x1"; "x2"])] in
  exists self',
    Parser.parse_loop Parser.init schema = Ok self' /\
    dict_get (Parser.nodes self') "E" = Some (NList ["X1"; "X2"]) /\
    dict_get (Parser.nodes self') "E" <> Some (NList (tl ["x0"; "x1"; "x2"])).
Proof.
  eexists. split; [reflexivity|]. split; [reflexivity | discriminate].
Qed.

(** C1, amended. For every enumeration of a schema that resolves, the
    resolved sequence is the declared enumerant list, each name capitalised
    by [cap], with the first entry dropped and the order kept: position [i]
    of the resolved sequence holds the capitalised name declared at
    position [i + 1].  The generated text contains the enumeration block
    built from exactly that sequence. *)
Theorem enum_drops_first_enumerant :
  forall schema self' name id enumerants,
    List.NoDup (map fst schema) ->
    Parser.parse_loop Parser.init schema = Ok self' ->
    In (name, EnumModule id enumerants) schema ->
    exists capped,
      Forall2 (fun declared resolved => cap declared = Ok resolved)
              enumerants capped /\
      dict_get (Parser.nodes self') name = Some (NList (tl capped)) /\
      (forall i, nth_error (tl capped) i = nth_error capped (S i)) /\
      exists before after,
        Generator.generate (Generator.init (Parser.nodes self')) (Parser.nodes self')
          = Ok (before
                  +:+ (nl +:+ "enum class " +:+ name +:+ " {" +:+ nl
                         +:+ "    " +:+ join ("," +:+ nl +:+ "    ") (tl capped)
                         +:+ "," +:+ nl +:+ "};" +:+ nl +:+ "            ")
                  +:+ after).
Proof.
  intros schema self' name id enumerants Hnd Hparse Hin.
  destruct (parse_loop_lookup_enum _ _ _ _ _ _ Hnd Hparse Hin) as (capped & Hcap & Hget).
  exists capped. split; [now apply cap_all_Forall2|]. split; [exact Hget|].
  split; [intros i; symmetry; apply nth_error_S|].
  assert (Hkeys : List.NoDup (dict_keys (Parser.nodes self'))).
  { apply (parse_loop_NoDup schema Parser.init self'); [constructor | exact Hparse]. }
  destruct (generate_blocks _ Hkeys) as (blocks & Hblocks & Hgen).
  destruct (blocks_split _ _ _ (name, NList (tl capped)) Hblocks)
    as (before & block & after & Hblock & Hsplit).
  { now apply dict_get_Some_In. }
  exists before, after. rewrite Hgen, Hsplit.
  unfold block_of in Hblock. simpl in Hblock. now rewrite Hblock.
Qed.

(** The enumeration declared [x0, x1, x2]. *)
Lemma enum_drops_first_enumerant_witness :
  let schema := [("E", EnumModule 1 ["x0"; "x1"; "x2"])] in
  let self' := Parser.mk ∅ (<[1%Z := "E"]> ∅) [("E", NList ["X1"; "X2"])] in
  List.NoDup (map fst schema) /\
  Parser.parse_loop Parser.init schema = Ok self' /\
  In ("E", EnumModule 1 ["x0"; "x1"; "x2"]) schema /\
  exists capped,
    Forall2 (fun declared resolved => cap declared = Ok resolved)
            ["x0"; "x1"; "x2"] capped /\
    dict_get (Parser.nodes self') "E" = Some (NList (tl capped)) /\
    (forall i, nth_error (tl capped) i = nth_error capped (S i)) /\
    exists before after,
      Generator.generate (Generator.init (Parser.nodes self')) (Parser.nodes self')
        = Ok (before
                +:+ (nl +:+ "enum class " +:+ "E" +:+ " {" +:+ nl
                       +:+ "    " +:+ join ("," +:+ nl +:+ "    ") (tl capped)
                       +:+ "," +:+ nl +:+ "};" +:+ nl +:+ "            ")
                +:+ after).
Proof.
  intros schema self'.
  assert (Hnd : List.NoDup (map fst schema)) by (simpl; nodup_keys).
  assert (Hparse : Parser.parse_loop Parser.init schema = Ok self') by reflexivity.
  assert (Hin : In ("E", EnumModule 1 ["x0"; "x1"; "x2"]) schema) by (now left).
  split; [exact Hnd|]. split; [exact Hparse|]. split; [exact Hin|].
  exact (enum_drops_first_enumerant schema self' "E" 1%Z ["x0"; "x1"; "x2"]
           Hnd Hparse Hin).
Defined.

(** ** Claims about the accessors of an enumeration field *)

Lemma to_size_t_small size_bits x :
  (0 <= x < 2 ^ size_bits)%Z -> Wrapper.to_size_t size_bits x = x.
Proof. intros H. unfold Wrapper.to_size_t. now apply Z.mod_small. Qed.

Lemma SetEnum_small size_bits base_bits v :
  (0 < base_bits <= size_bits)%Z ->
  (0 <= v)%Z -> (v + 1 < 2 ^ base_bits)%Z ->
  Wrapper.SetEnum size_bits base_bits v = (v + 1)%Z.
Proof.
  intros Hbits Hv Hfit.
  assert (Hpow : (2 ^ base_bits <= 2 ^ size_bits)%Z)
    by (apply Z.pow_le_mono_r; lia).
  unfold Wrapper.SetEnum, Wrapper.to_base.
  rewrite (to_size_t_small size_bits v) by lia.
  rewrite (to_size_t_small size_bits (v + 1)) by lia.
  apply Z.mod_small. lia.
Qed.

Lemma GetEnum_small size_bits enum_bits raw :
  (0 < enum_bits <= size_bits)%Z ->
  (1 <= raw)%Z -> (raw - 1 < 2 ^ (enum_bits - 1))%Z -> (raw < 2 ^ size_bits)%Z ->
  Wrapper.GetEnum size_bits enum_bits raw = (raw - 1)%Z.
Proof.
  intros Hbits Hraw Hfit Hsize.
  assert (Hhalf : (2 ^ (enum_bits - 1) < 2 ^ enum_bits)%Z)
    by (apply Z.pow_lt_mono_r; lia).
  unfold Wrapper.GetEnum, Wrapper.to_enum.
  rewrite (to_size_t_small size_bits raw) by lia.
  rewrite (to_size_t_small size_bits (raw - 1)) by lia.
  rewrite (Z.mod_small (raw - 1)) by lia.
  destruct (Z.ltb_spec (raw - 1) (2 ^ (enum_bits - 1))); [reflexivity | lia].
Qed.

(** C2. For a field of enumeration type, [generate_set_methods] emits the
    Set method that adds one to the public value and
    [generate_get_methods] emits the Get method that subtracts one from the
    raw value.  For every public value [v] of the enumeration (an index
    into its resolved enumerants, all of which the underlying types can
    represent) the raw value stored by Set is [v + 1], and Get after Set
    returns [v]. *)
Theorem enum_set_get_roundtrip :
  forall (size_bits base_bits enum_bits : Z) (g : Generator.t)
         (struct_name name type_ : string) (fields : dict string)
         (enumerants : list string),
    (0 < base_bits <= size_bits)%Z ->
    (0 < enum_bits <= size_bits)%Z ->
    dict_get (Generator.nodes g) struct_name = Some (NDict fields) ->
    In (name, type_) fields ->
    dict_get (Generator.nodes g) type_ = Some (NList enumerants) ->
    (Z.of_nat (length enumerants) < 2 ^ base_bits)%Z ->
    (Z.of_nat (length enumerants) <= 2 ^ (enum_bits - 1))%Z ->
    (exists sets gets,
       Generator.generate_set_methods g struct_name = Ok sets /\
       In ("void Set" +:+ name +:+ "(const " +:+ type_ +:+ "& value) { return set"
             +:+ name +:+ "(static_cast<NKikimrCapnProto_::" +:+ type_
             +:+ ">(static_cast<size_t>(value) + 1)); }") sets /\
       Generator.generate_get_methods g struct_name = Ok gets /\
       In (type_ +:+ " Get" +:+ name +:+ "() const { return static_cast<" +:+ type_
             +:+ ">(static_cast<size_t>(get" +:+ name +:+ "()) - 1); }") gets) /\
    forall v : nat,
      (v < length enumerants)%nat ->
      Wrapper.SetEnum size_bits base_bits (Z.of_nat v) = (Z.of_nat v + 1)%Z /\
      Wrapper.GetEnum size_bits enum_bits
        (Wrapper.SetEnum size_bits base_bits (Z.of_nat v)) = Z.of_nat v.
Proof.
  intros size_bits base_bits enum_bits g struct_name name type_ fields enumerants
    Hbase Henum Hstruct Hfield Htype Hfit_base Hfit_enum.
  assert (His : Generator.is_enum g type_ = true)
    by (unfold Generator.is_enum; now rewrite Htype).
  split.
  - apply items_Ok in Hstruct.
    unfold Generator.generate_set_methods, Generator.generate_get_methods.
    rewrite Hstruct. simpl. eexists _, _.
    split; [reflexivity|]. split; [|split; [reflexivity|]].
    + apply in_or_app. right. apply in_or_app. right.
      exact (comprehension_In
               (fun name type_ => Generator.set_enum_template name type_ BASE_NAMESPACE)
               _ fields name type_ Hfield His).
    + apply in_or_app. right. apply in_or_app. right.
      exact (comprehension_In Generator.get_enum_template _ fields name type_
               Hfield His).
  - intros v Hv.
    assert (Hset : Wrapper.SetEnum size_bits base_bits (Z.of_nat v)
                   = (Z.of_nat v + 1)%Z)
      by (apply SetEnum_small; lia).
    split; [exact Hset|]. rewrite Hset.
    assert (Hpow : (2 ^ base_bits <= 2 ^ size_bits)%Z)
      by (apply Z.pow_le_mono_r; lia).
    rewrite GetEnum_small; lia.
Qed.

(** The field [Color] of the sample mapping with a 64-bit [size_t], a 16-bit base
    enumeration and a 32-bit wrapper enumeration. *)
Lemma enum_set_get_roundtrip_witness :
  let g := Generator.init sample_nodes in
  let fields := [ ("Color", "Color"); ("Inner", "Inner"); ("Count", "uint64");
                  ("Items", "List(Inner)"); ("Nums", "List(int32)");
                  ("Name", "text") ] in
  (0 < 16 <= 64)%Z /\ (0 < 32 <= 64)%Z /\
  dict_get (Generator.nodes g) "Outer" = Some (NDict fields) /\
  In ("Color", "Color") fields /\
  dict_get (Generator.nodes g) "Color" = Some (NList ["Red"; "Green"]) /\
  (Z.of_nat (length ["Red"; "Green"]) < 2 ^ 16)%Z /\
  (Z.of_nat (length ["Red"; "Green"]) <= 2 ^ (32 - 1))%Z /\
  Wrapper.SetEnum 64 16 (Z.of_nat 1) = 2%Z /\
  Wrapper.GetEnum 64 32 (Wrapper.SetEnum 64 16 (Z.of_nat 1)) = 1%Z.
Proof.
  intros g fields.
  assert (H1 : (0 < 16 <= 64)%Z) by lia.
  assert (H2 : (0 < 32 <= 64)%Z) by lia.
  assert (H3 : dict_get (Generator.nodes g) "Outer" = Some (NDict fields))
    by reflexivity.
  assert (H4 : In ("Color", "Color") fields) by (now left).
  assert (H5 : dict_get (Generator.nodes g) "Color" = Some (NList ["Red"; "Green"]))
    by reflexivity.
  assert (H6 : (Z.of_nat (length ["Red"; "Green"]) < 2 ^ 16)%Z) by (simpl; lia).
  assert (H7 : (Z.of_nat (length ["Red"; "Green"]) <= 2 ^ (32 - 1))%Z)
    by (simpl; lia).
  repeat (split; [assumption|]).
  apply (proj2 (enum_set_get_roundtrip 64 16 32 g "Outer" "Color" "Color" fields
                  ["Red"; "Green"] H1 H2 H3 H4 H5 H6 H7) 1%nat).
  simpl. lia.
Defined.

Lemma enumerator_from_first first rest ident :
  Wrapper.enumerator_from first (ident :: rest) ident = Some first.
Proof. simpl. now rewrite String.eqb_refl. Qed.

Lemma HasEnum_spec base not_set raw :
  Wrapper.enumerator_value base "NOT_SET" = Some not_set ->
  Wrapper.HasEnum base raw = Some (negb (raw =? not_set)%Z).
Proof. intros H. unfold Wrapper.HasEnum. now rewrite H. Qed.

(** C3, as stated, fails: the Has method compares with the enumerator the
    base enumeration calls [NOT_SET], wherever it was declared.  For an
    enumeration declared [a, notSet, b] (base enumerators [A, NOT_SET, B])
    the dropped first enumerant has raw value 0, for which Has returns
    true, and Has returns false for raw value 1. *)
Lemma enum_has_counterexample :
  let schema := [ ("E", EnumModule 1 ["a"; "notSet"; "b"]);
                  ("S", StructModule 2 [("e", f_slot (t_enum 1))]) ] in
  let base := ["A"; "NOT_SET"; "B"] in
  exists self',
    Parser.parse_loop Parser.init schema = Ok self' /\
    dict_get (Parser.nodes self') "E" = Some (NList ["NotSet"; "B"]) /\
    Generator.generate_has_methods (Generator.init (Parser.nodes self')) "S"
      = Ok ["bool HasE() const { return getE() != NKikimrCapnProto_::E::NOT_SET; }"] /\
    Wrapper.HasEnum base 0 = Some true /\
    Wrapper.HasEnum base 1 = Some false.
Proof.
  eexists. split; [reflexivity|]. repeat split; reflexivity.
Qed.

(** C3, amended. For a field of enumeration type, [generate_has_methods]
    emits the Has method that compares the raw value with the base
    enumeration's enumerator [NOT_SET].  It returns false exactly when the
    raw value is that enumerator's value and true for every other raw
    value; when [NOT_SET] is the first enumerator of the base enumeration,
    that value is the reserved sentinel 0. *)
Theorem enum_has_compares_with_NOT_SET :
  forall (g : Generator.t) (struct_name name type_ : string) (fields : dict string),
    dict_get (Generator.nodes g) struct_name = Some (NDict fields) ->
    In (name, type_) fields ->
    Generator.is_enum g type_ = true ->
    (exists has,
       Generator.generate_has_methods g struct_name = Ok has /\
       In ("bool Has" +:+ name +:+ "() const { return get" +:+ name
             +:+ "() != NKikimrCapnProto_::" +:+ type_ +:+ "::NOT_SET; }") has) /\
    (forall base not_set raw,
       Wrapper.enumerator_value base "NOT_SET" = Some not_set ->
       (Wrapper.HasEnum base raw = Some false <-> raw = not_set) /\
       (Wrapper.HasEnum base raw = Some true <-> raw <> not_set)) /\
    (forall rest raw,
       (Wrapper.HasEnum ("NOT_SET" :: rest) raw = Some false <-> raw = 0%Z) /\
       (Wrapper.HasEnum ("NOT_SET" :: rest) raw = Some true <-> raw <> 0%Z)).
Proof.
  intros g struct_name name type_ fields Hstruct Hfield His.
  assert (Hcmp : forall base not_set raw,
            Wrapper.enumerator_value base "NOT_SET" = Some not_set ->
            (Wrapper.HasEnum base raw = Some false <-> raw = not_set) /\
            (Wrapper.HasEnum base raw = Some true <-> raw <> not_set)).
  { intros base not_set raw Hval. rewrite (HasEnum_spec _ _ raw Hval).
    destruct (Z.eqb_spec raw not_set) as [Heq|Hne]; simpl; split; split;
      intros H; try congruence; try reflexivity; try discriminate. }
  split; [|split; [exact Hcmp|]].
  - apply items_Ok in Hstruct. unfold Generator.generate_has_methods.
    rewrite Hstruct. simpl. eexists. split; [reflexivity|].
    apply in_or_app. right. apply in_or_app. left.
    exact (comprehension_In Generator.has_enum_template _ fields name type_
             Hfield His).
  - intros rest raw. apply Hcmp. apply enumerator_from_first.
Qed.

(** The field [Color] of the sample mapping, whose base enumeration declares
    [NOT_SET] first. *)
Lemma enum_has_compares_with_NOT_SET_witness :
  let g := Generator.init sample_nodes in
  let fields := [ ("Color", "Color"); ("Inner", "Inner"); ("Count", "uint64");
                  ("Items", "List(Inner)"); ("Nums", "List(int32)");
                  ("Name", "text") ] in
  dict_get (Generator.nodes g) "Outer" = Some (NDict fields) /\
  In ("Color", "Color") fields /\
  Generator.is_enum g "Color" = true /\
  (Wrapper.HasEnum ["NOT_SET"; "RED"; "GREEN"] 0 = Some false <-> 0%Z = 0%Z) /\
  (Wrapper.HasEnum ["NOT_SET"; "RED"; "GREEN"] 2 = Some true <-> 2%Z <> 0%Z).
Proof.
  intros g fields.
  assert (H1 : dict_get (Generator.nodes g) "Outer" = Some (NDict fields))
    by reflexivity.
  assert (H2 : In ("Color", "Color") fields) by (now left).
  assert (H3 : Generator.is_enum g "Color" = true) by reflexivity.
  repeat (split; [assumption|]).
  destruct (enum_has_compares_with_NOT_SET g "Outer" "Color" "Color" fields
              H1 H2 H3) as (_ & _ & Hfirst).
  split.
  - exact (proj1 (Hfirst ["RED"; "GREEN"] 0%Z)).
  - exact (proj2 (Hfirst ["RED"; "GREEN"] 2%Z)).
Defined.

(** For a field of a kind of [CAPNP_BASIC_TYPES], [generate_has_methods]
    emits the Has method that compares the getter with the literal 0, the
    same text for every kind of the table. *)
Lemma basic_has_compares_with_zero :
  forall (g : Generator.t) (struct_name name type_ : string) (fields : dict string),
    dict_get (Generator.nodes g) struct_name = Some (NDict fields) ->
    In (name, type_) fields ->
    Generator.is_basic_type type_ = true ->
    exists has,
      Generator.generate_has_methods g struct_name = Ok has /\
      In ("bool Has" +:+ name +:+ "() const { return get" +:+ name
            +:+ "() != 0; }") has.
Proof.
  intros g struct_name name type_ fields Hstruct Hfield His.
  apply items_Ok in Hstruct. unfold Generator.generate_has_methods.
  rewrite Hstruct. simpl. eexists. split; [reflexivity|].
  apply in_or_app. right. apply in_or_app. right.
  exact (comprehension_In Generator.has_basic_template _ fields name type_
           Hfield His).
Qed.

(** ** Claims about failures *)

Lemma parse_struct_loop_app self fpre : forall rest res,
  Parser.parse_struct_loop self (fpre ++ rest) res
    = bind (Parser.parse_struct_loop self fpre res)
           (fun r => Parser.parse_struct_loop self rest r).
Proof.
  induction fpre as [|[name field] fpre IH]; intros rest res; [reflexivity|].
  simpl. destruct (Parser.resolve_field self field); [|reflexivity].
  simpl. destruct (cap name); [|reflexivity]. simpl. apply IH.
Qed.

Lemma parse_loop_app pre : forall self rest,
  Parser.parse_loop self (pre ++ rest)
    = bind (Parser.parse_loop self pre) (fun s => Parser.parse_loop s rest).
Proof.
  induction pre as [|[name module] pre IH]; intros self rest; [reflexivity|].
  simpl. destruct (Parser.parse_step self name module); [|reflexivity].
  simpl. apply IH.
Qed.

Lemma resolve_type_unregistered self field :
  unregistered self field -> Parser.resolve_type self field = Raise KeyError.
Proof.
  destruct field as [| | | | | | | | | | | | | |elementType|typeId|typeId|typeId|];
    simpl; try contradiction.
  - destruct elementType; simpl; try contradiction.
    intros H. unfold subscript_id. now rewrite H.
  - intros H. unfold subscript_id. now rewrite H.
  - intros H. unfold subscript_id. now rewrite H.
Qed.

Lemma resolve_type_error self field e :
  Parser.resolve_type self field = Raise e -> e = KeyError.
Proof.
  assert (Hsub : forall m k, subscript_id m k = Raise e -> e = KeyError).
  { intros m k. unfold subscript_id. destruct (m !! k); congruence. }
  destruct field as [| | | | | | | | | | | | | |elementType|typeId|typeId|typeId|];
    simpl; try discriminate; try apply Hsub.
  destruct elementType; simpl; try discriminate.
  destruct (subscript_id (Parser.struct_ids self) typeId) eqn:Hid; simpl;
    [discriminate|]. intros [= <-]. now apply Hsub in Hid.
Qed.

Lemma resolve_field_error self field e :
  Parser.resolve_field self field = Raise e -> e = KeyError \/ e = KjException.
Proof.
  destruct field as [type_|typeId]; simpl.
  - intros H. left. now apply resolve_type_error in H.
  - intros [= <-]. now right.
Qed.

(** The struct at which resolution stops, seen from [parse_loop]. *)
Lemma parse_loop_struct_raises pre name id fields post self e :
  Parser.parse_loop Parser.init pre = Ok self ->
  Parser.parse_struct (registered_struct self id name) fields = Raise e ->
  Parser.parse_loop Parser.init (pre ++ (name, StructModule id fields) :: post)
    = Raise e.
Proof.
  intros Hpre Hfields. rewrite parse_loop_app, Hpre. simpl.
  unfold registered_struct in Hfields. now rewrite Hfields.
Qed.

(** C4, as stated, fails for a list element of enumeration kind: its
    TypeId is never looked up, so a list of an unregistered enumeration
    resolves to [List(enum)] and the text is printed. *)
Lemma unregistered_list_enum_counterexample :
  let schema := [("S", StructModule 1 [("xs", f_slot (t_list (t_enum 99)))])] in
  let outcome := main (load_const schema) ["main.py"] in
  Parser.enum_ids (registered_struct Parser.init 1 "S") !! 99%Z = None /\
  Parser.parse_loop Parser.init schema
    = Ok (Parser.mk (<[1%Z := "S"]> ∅) ∅ [("S", NDict [("Xs", "List(enum)")])]) /\
  raised outcome = None /\
  stdout outcome <> "".
Proof.
  repeat split; try reflexivity. vm_compute. discriminate.
Qed.

(** C4, amended. When the resolver reaches a field whose type is a record
    or an enumeration, or a list whose element is a record, and the TypeId
    it looks up is not in the id index at that moment, the run ends with a
    lookup error and prints nothing. *)
Theorem unregistered_reference_fails :
  forall (capnp_load : string -> Result Schema) (argv : list string)
         (pre post : Schema) (name fname : string) (id : Z)
         (fpre fpost : list (string * Field)) (field : SlotType)
         (self : Parser.t) (res : dict string),
    capnp_load (schema_path argv)
      = Ok (pre ++ (name, StructModule id (fpre ++ (fname, f_slot field) :: fpost))
                :: post) ->
    Parser.parse_loop Parser.init pre = Ok self ->
    Parser.parse_struct (registered_struct self id name) fpre = Ok res ->
    unregistered (registered_struct self id name) field ->
    main capnp_load argv = mkOutcome "" (Some KeyError).
Proof.
  intros capnp_load argv pre post name fname id fpre fpost field self res
    Hload Hpre Hfpre Hunreg.
  unfold main, Parser.parse. rewrite Hload. simpl.
  rewrite (parse_loop_struct_raises pre name id _ post self KeyError Hpre);
    [reflexivity|].
  unfold Parser.parse_struct in *. rewrite parse_struct_loop_app, Hfpre. simpl.
  now rewrite (resolve_type_unregistered _ _ Hunreg).
Qed.

(** A record that refers to a record declared after it. *)
Lemma unregistered_reference_fails_witness :
  let schema := [ ("Color", EnumModule 10 ["notSet"; "red"]);
                  ("Outer", StructModule 30
                     [("color", f_slot (t_enum 10)); ("inner", f_slot (t_struct 20))]);
                  ("Inner", StructModule 20 [("x", f_slot t_int32)]) ] in
  let self := Parser.mk ∅ (<[10%Z := "Color"]> ∅) [("Color", NList ["Red"])] in
  load_const schema (schema_path ["main.py"; "schema.capnp"]) = Ok schema /\
  Parser.parse_loop Parser.init [("Color", EnumModule 10 ["notSet"; "red"])]
    = Ok self /\
  Parser.parse_struct (registered_struct self 30 "Outer") [("color", f_slot (t_enum 10))]
    = Ok [("Color", "Color")] /\
  unregistered (registered_struct self 30 "Outer") (t_struct 20) /\
  main (load_const schema) ["main.py"; "schema.capnp"]
    = mkOutcome "" (Some KeyError).
Proof.
  intros schema self.
  assert (H1 : load_const schema (schema_path ["main.py"; "schema.capnp"])
               = Ok schema) by reflexivity.
  assert (H2 : Parser.parse_loop Parser.init
                 [("Color", EnumModule 10 ["notSet"; "red"])] = Ok self)
    by reflexivity.
  assert (H3 : Parser.parse_struct (registered_struct self 30 "Outer")
                 [("color", f_slot (t_enum 10))] = Ok [("Color", "Color")])
    by reflexivity.
  assert (H4 : unregistered (registered_struct self 30 "Outer") (t_struct 20))
    by reflexivity.
  repeat (split; [assumption|]).
  exact (unregistered_reference_fails (load_const schema)
           ["main.py"; "schema.capnp"]
           [("Color", EnumModule 10 ["notSet"; "red"])]
           [("Inner", StructModule 20 [("x", f_slot t_int32)])]
           "Outer" "inner" 30%Z [("color", f_slot (t_enum 10))] [] (t_struct 20)
           self [("Color", "Color")] H1 H2 H3 H4).
Defined.

Lemma cap_nonempty name : name <> "" -> exists key, cap name = Ok key.
Proof. destruct name as [|c rest]; [congruence | simpl; eauto]. Qed.


Lemma cap_all_error enumerants e :
  Parser.cap_all enumerants = Raise e -> e = IndexError.
Proof.
  induction enumerants as [|n rest IH]; simpl; [discriminate|].
  destruct n as [|c n]; simpl; [congruence|].
  destruct (Parser.cap_all rest); simpl; [discriminate|].
  intros [= <-]. now apply IH.
Qed.

Lemma cap_all_nonempty enumerants :
  Forall (fun e => e <> "") enumerants ->
  exists capped, Parser.cap_all enumerants = Ok capped.
Proof.
  induction 1 as [|n rest Hn _ [capped IH]]; simpl; [eauto|].
  destruct (cap_nonempty n Hn) as [c ->]. rewrite IH. simpl. eauto.
Qed.



Lemma parse_struct_loop_error self fields : forall res e,
  Parser.parse_struct_loop self fields res = Raise e ->
  (e = KeyError \/ e = KjException) \/
  (e = IndexError /\ ~ Forall (fun f => fst f <> "") fields).
Proof.
  induction fields as [|[name field] rest IH]; simpl; intros res e H;
    [discriminate|].
  apply bind_Raise_inv in H as [H|(type_ & _ & H)].
  - left. now apply resolve_field_error in H.
  - destruct name as [|c name]; simpl in H.
    + injection H as <-. right. split; [reflexivity|].
      intros Hall. apply List.Forall_inv in Hall. now apply Hall.
    + destruct (IH _ _ H) as [Hk|[-> Hrest]]; [now left|].
      right. split; [reflexivity|]. intros Hall. apply Hrest.
      now apply List.Forall_inv_tail in Hall.
Qed.


Lemma parse_loop_error schema : forall self e,
  Parser.parse_loop self schema = Raise e ->
  (e = KeyError \/ e = KjException) \/ (e = IndexError /\ ~ names_nonempty schema).
Proof.
  induction schema as [|[name module] rest IH]; simpl; intros self e H;
    [discriminate|].
  apply bind_Raise_inv in H as [H|(self1 & _ & H)].
  - destruct module as [id fields|id enumerants|]; simpl in H.
    + apply bind_Raise_inv in H as [H|(r & _ & H)]; [|discriminate].
      destruct (parse_struct_loop_error _ _ _ _ H) as [Hk|[-> Hbad]]; [now left|].
      right. split; [reflexivity|]. intros Hall. apply Hbad.
      exact (List.Forall_inv Hall).
    + apply bind_Raise_inv in H as [H|(r & _ & H)]; [|discriminate].
      rewrite (cap_all_error _ _ H). right. split; [reflexivity|].
      intros Hall. apply List.Forall_inv in Hall. simpl in Hall.
      destruct (cap_all_nonempty _ Hall) as [capped Hok]. congruence.
    + discriminate.
  - destruct (IH _ _ H) as [Hk|[-> Hbad]]; [now left|].
    right. split; [reflexivity|]. intros Hall. apply Hbad.
    exact (List.Forall_inv_tail Hall).
Qed.




(** * Further properties of the code *)

(** ** [cap] and [low] *)

Lemma upper_idempotent (c : ascii) : upper (upper c) = upper c.
Proof.
  destruct c as [[] [] [] [] [] [] [] []]; vm_compute; reflexivity.
Qed.

Lemma lower_upper (c : ascii) : lower c = c -> lower (upper c) = c.
Proof.
  destruct c as [[] [] [] [] [] [] [] []]; vm_compute; congruence.
Qed.

Lemma upper_lower (c : ascii) : upper c = c -> upper (lower c) = c.
Proof.
  destruct c as [[] [] [] [] [] [] [] []]; vm_compute; congruence.
Qed.

Lemma is_ascii_cons (a : ascii) (rest : string) :
  is_ascii (String a rest) = (nat_of_ascii a <? 128)%nat && is_ascii rest.
Proof. reflexivity. Qed.

Lemma upper_ascii (a : ascii) :
  (nat_of_ascii a <? 128)%nat = true -> (nat_of_ascii (upper a) <? 128)%nat = true.
Proof.
  destruct a as [[] [] [] [] [] [] [] []]; vm_compute; congruence.
Qed.

(** X1. On a name of ASCII characters, capitalising is idempotent and
    touches the first character only: the result of [cap] is a fixed
    point of [cap], it is capitalised and still ASCII, and it has the
    length and the tail of the input. *)
Theorem cap_idempotent (s c : string) :
  is_ascii s = true ->
  cap s = Ok c ->
  cap c = Ok c /\
  capitalised c /\
  is_ascii c = true /\
  String.length c = String.length s /\
  String.substring 1 (String.length s - 1) c
    = String.substring 1 (String.length s - 1) s.
Proof.
  destruct s as [|a rest]; [discriminate|].
  rewrite is_ascii_cons. intros Hascii [= <-].
  apply andb_prop in Hascii as [Ha Hrest].
  split; [simpl; now rewrite upper_idempotent|].
  split; [simpl; apply upper_idempotent|].
  split; [|split; reflexivity].
  rewrite is_ascii_cons, Hrest, (upper_ascii a Ha). reflexivity.
Qed.

(** The name [count] becomes [Count], and [Count] stays. *)
Lemma cap_idempotent_witness :
  is_ascii "count" = true /\
  cap "count" = Ok "Count" /\
  cap "Count" = Ok "Count" /\
  capitalised "Count" /\
  is_ascii "Count" = true /\
  String.length "Count" = String.length "count" /\
  String.substring 1 (String.length "count" - 1) "Count"
    = String.substring 1 (String.length "count" - 1) "count".
Proof.
  split; [reflexivity|]. split; [reflexivity|].
  exact (cap_idempotent "count" "Count" eq_refl eq_refl).
Defined.

(** X2. On a name of ASCII characters, [low] undoes [cap] when [low]
    leaves the name alone (it does not start with an upper-case letter),
    and [cap] undoes [low] when [cap] leaves the name alone. *)
Theorem low_cap_roundtrip (s : string) :
  is_ascii s = true ->
  (low s = Ok s -> exists c, cap s = Ok c /\ low c = Ok s) /\
  (cap s = Ok s -> exists l, low s = Ok l /\ cap l = Ok s).
Proof.
  intros _. destruct s as [|a rest]; simpl; split; try discriminate.
  - intros [= H]. eexists. split; [reflexivity|]. simpl.
    now rewrite (lower_upper a H).
  - intros [= H]. eexists. split; [reflexivity|]. simpl.
    now rewrite (upper_lower a H).
Qed.

(** The field name [notSet] and the type name [Color]. *)
Lemma low_cap_roundtrip_witness :
  (is_ascii "notSet" = true /\ low "notSet" = Ok "notSet" /\
   exists c, cap "notSet" = Ok c /\ low c = Ok "notSet") /\
  (is_ascii "Color" = true /\ cap "Color" = Ok "Color" /\
   exists l, low "Color" = Ok l /\ cap l = Ok "Color").
Proof.
  split.
  - split; [reflexivity|]. split; [reflexivity|].
    exact (proj1 (low_cap_roundtrip "notSet" eq_refl) eq_refl).
  - split; [reflexivity|]. split; [reflexivity|].
    exact (proj2 (low_cap_roundtrip "Color" eq_refl) eq_refl).
Defined.

(** ** Field resolution *)

(** X3. Resolving one field has exactly three outcomes: the error of a
    field without a slot when the field is a group; a lookup error when
    the field is a slot whose reference is unregistered; and otherwise, for
    every other slot, a resolved type. *)
Theorem resolve_field_outcomes (self : Parser.t) (field : Field) :
  (Parser.resolve_field self field = Raise KjException <->
     exists typeId, field = f_group typeId) /\
  (Parser.resolve_field self field = Raise KeyError <->
     exists type_, field = f_slot type_ /\ unregistered self type_) /\
  ((exists resolved, Parser.resolve_field self field = Ok resolved) <->
     exists type_, field = f_slot type_ /\ ~ unregistered self type_) /\
  (forall e, Parser.resolve_field self field = Raise e ->
     e = KjException \/ e = KeyError).
Proof.
  destruct field as [type_|typeId]; simpl.
  - assert (Hdec : unregistered self type_ \/
                   exists resolved, Parser.resolve_type self type_ = Ok resolved).
    { destruct type_ as [| | | | | | | | | | | | | |elementType|typeId|typeId|typeId|];
        simpl; eauto.
      - destruct elementType; simpl; eauto.
        unfold subscript_id.
        destruct (Parser.struct_ids self !! typeId); simpl; eauto.
      - unfold subscript_id. destruct (Parser.enum_ids self !! typeId); eauto.
      - unfold subscript_id. destruct (Parser.struct_ids self !! typeId); eauto. }
    split; [|split; [|split]].
    + split; [|intros [typeId [=]]].
      intros H. apply resolve_type_error in H. discriminate.
    + split.
      * intros H. exists type_. split; [reflexivity|].
        destruct Hdec as [Hun|[resolved Hok]]; [exact Hun | congruence].
      * intros (t & [= <-] & Hun). now apply resolve_type_unregistered.
    + split.
      * intros [resolved Hok]. exists type_. split; [reflexivity|].
        intros Hun. apply resolve_type_unregistered in Hun. congruence.
      * intros (t & [= <-] & Hreg).
        destruct Hdec as [Hun|Hok]; [contradiction | exact Hok].
    + intros e H. right. now apply resolve_type_error in H.
  - split; [|split; [|split]].
    + split; [eauto | reflexivity].
    + split; [discriminate | intros (t & [=] & _)].
    + split; [intros [resolved [=]] | intros (t & [=] & _)].
    + intros e [= <-]. now left.
Qed.

(** A record with a group field: the run ends where the field's slot is
    read, and prints nothing. *)
Example group_field_ends_the_run :
  main (load_const [("Shape", StructModule 5
                        [("area", f_slot t_float64); ("size", f_group 6)])])
       ["main.py"]
    = mkOutcome "" (Some KjException).
Proof. reflexivity. Qed.

Lemma dict_keys_app {V} (d1 d2 : dict V) :
  dict_keys (d1 ++ d2) = dict_keys d1 ++ dict_keys d2.
Proof. unfold dict_keys. apply List.map_app. Qed.

Lemma dict_set_fresh {V} (d : dict V) k v :
  ~ In k (dict_keys d) -> dict_set d k v = d ++ [(k, v)].
Proof.
  induction d as [|[k' v'] d IH]; simpl; intros Hfresh; [reflexivity|].
  destruct (String.eqb_spec k' k) as [->|Hne]; [tauto|].
  rewrite IH by tauto. reflexivity.
Qed.

Lemma dict_set_In {V} (d : dict V) k v k0 v0 :
  In (k0, v0) (dict_set d k v) -> (k0 = k /\ v0 = v) \/ In (k0, v0) d.
Proof.
  induction d as [|[k' v'] d IH]; simpl.
  - intros [[= <- <-]|[]]. now left.
  - destruct (String.eqb_spec k' k) as [->|Hne]; simpl.
    + intros [[= <- <-]|Hin]; [now left | now right; right].
    + intros [Heq|Hin]; [now right; left|].
      destruct (IH Hin) as [?|?]; [now left | now right; right].
Qed.

Lemma parse_struct_loop_in_order self fields entries :
  Forall2 (fun f e => cap (fst f) = Ok (fst e) /\
                      Parser.resolve_field self (snd f) = Ok (snd e))
          fields entries ->
  forall res,
    List.NoDup (dict_keys (res ++ entries)) ->
    Parser.parse_struct_loop self fields res = Ok (res ++ entries).
Proof.
  induction 1 as [|[name field] [key type_] fields entries [Hcap Hres] _ IH];
    intros res Hnd.
  - simpl. now rewrite List.app_nil_r.
  - simpl in Hcap, Hres. simpl. rewrite Hres. simpl. rewrite Hcap. simpl.
    assert (Hfresh : ~ In key (dict_keys res)).
    { rewrite dict_keys_app in Hnd. simpl in Hnd.
      apply List.NoDup_remove_2 in Hnd. intros Hin. apply Hnd.
      apply in_or_app. now left. }
    rewrite (dict_set_fresh res key type_ Hfresh).
    replace (res ++ (key, type_) :: entries)
      with ((res ++ [(key, type_)]) ++ entries)
      by (now rewrite <- List.app_assoc).
    apply IH. now rewrite <- List.app_assoc.
Qed.

(** X4. When the capitalised field names are pairwise distinct, the
    resolved record is the list of (capitalised name, resolved type)
    pairs in declaration order. *)
Theorem parse_struct_in_order (self : Parser.t)
    (fields : list (string * Field)) (entries : dict string) :
  Forall2 (fun f e => cap (fst f) = Ok (fst e) /\
                      Parser.resolve_field self (snd f) = Ok (snd e))
          fields entries ->
  List.NoDup (dict_keys entries) ->
  Parser.parse_struct self fields = Ok entries.
Proof.
  intros Hall Hnd. unfold Parser.parse_struct.
  exact (parse_struct_loop_in_order self fields entries Hall [] Hnd).
Qed.

(** Two fields, an enumeration and a list of integers. *)
Lemma parse_struct_in_order_witness :
  let self := Parser.mk ∅ (<[10%Z := "Color"]> ∅) [] in
  let fields := [("color", f_slot (t_enum 10)); ("nums", f_slot (t_list t_int32))] in
  let entries := [("Color", "Color"); ("Nums", "List(int32)")] in
  Forall2 (fun f e => cap (fst f) = Ok (fst e) /\
                      Parser.resolve_field self (snd f) = Ok (snd e))
          fields entries /\
  List.NoDup (dict_keys entries) /\
  Parser.parse_struct self fields = Ok entries.
Proof.
  intros self fields entries.
  assert (H1 : Forall2 (fun f e => cap (fst f) = Ok (fst e) /\
                          Parser.resolve_field self (snd f) = Ok (snd e))
                 fields entries)
    by (repeat constructor).
  assert (H2 : List.NoDup (dict_keys entries)) by (simpl; nodup_keys).
  split; [exact H1|]. split; [exact H2|].
  exact (parse_struct_in_order self fields entries H1 H2).
Defined.

Lemma parse_struct_loop_NoDup self fields : forall res res',
  List.NoDup (dict_keys res) ->
  Parser.parse_struct_loop self fields res = Ok res' ->
  List.NoDup (dict_keys res').
Proof.
  induction fields as [|[name field] rest IH]; simpl; intros res res' Hnd H.
  - now injection H as <-.
  - apply bind_Ok_inv in H as (type_ & _ & H).
    apply bind_Ok_inv in H as (key & _ & H).
    apply (IH _ _ (dict_set_NoDup res key type_ Hnd) H).
Qed.

Lemma parse_struct_loop_other_key self key fields : forall res res',
  Parser.parse_struct_loop self fields res = Ok res' ->
  (forall n f, In (n, f) fields -> cap n <> Ok key) ->
  dict_get res' key = dict_get res key.
Proof.
  induction fields as [|[name field] rest IH]; simpl; intros res res' H Hother.
  - now injection H as <-.
  - apply bind_Ok_inv in H as (type_ & _ & H).
    apply bind_Ok_inv in H as (k & Hk & H).
    rewrite (IH _ _ H) by (intros n f Hin; apply (Hother n f); now right).
    apply dict_get_set_ne. intros ->. apply (Hother name field); [now left|].
    exact Hk.
Qed.

(** X5. A resolved record never holds a key twice.  When several fields
    capitalise to the same key, the entry holds the type of the last of
    them. *)
Theorem parse_struct_last_wins (self : Parser.t)
    (pre post : list (string * Field)) (name key : string)
    (field : Field) (res : dict string) :
  Parser.parse_struct self (pre ++ (name, field) :: post) = Ok res ->
  cap name = Ok key ->
  (forall n f, In (n, f) post -> cap n <> Ok key) ->
  List.NoDup (dict_keys res) /\
  exists type_,
    Parser.resolve_field self field = Ok type_ /\
    dict_get res key = Some type_.
Proof.
  unfold Parser.parse_struct. intros H Hcap Hpost. split.
  - apply (parse_struct_loop_NoDup self (pre ++ (name, field) :: post) [] res);
      [constructor | exact H].
  - rewrite parse_struct_loop_app in H.
    apply bind_Ok_inv in H as (r1 & _ & H). simpl in H.
    apply bind_Ok_inv in H as (type_ & Hty & H).
    apply bind_Ok_inv in H as (k & Hk & H).
    assert (k = key) by congruence. subst k.
    exists type_. split; [exact Hty|].
    rewrite (parse_struct_loop_other_key self key post _ _ H Hpost).
    apply dict_get_set_eq.
Qed.

(** The fields [id] and [Id] share the key [Id]. *)
Lemma parse_struct_last_wins_witness :
  let res := [("Id", "text"); ("Size", "uint8")] in
  Parser.parse_struct Parser.init
    ([("id", f_slot t_int32); ("size", f_slot t_uint8)] ++ ("Id", f_slot t_text) :: []) = Ok res /\
  cap "Id" = Ok "Id" /\
  (forall n (f : Field), In (n, f) [] -> cap n <> Ok "Id") /\
  List.NoDup (dict_keys res) /\
  exists type_,
    Parser.resolve_field Parser.init (f_slot t_text) = Ok type_ /\
    dict_get res "Id" = Some type_.
Proof.
  intros res.
  assert (H1 : Parser.parse_struct Parser.init
                 ([("id", f_slot t_int32); ("size", f_slot t_uint8)] ++ ("Id", f_slot t_text) :: [])
               = Ok res) by reflexivity.
  assert (H2 : cap "Id" = Ok "Id") by reflexivity.
  assert (H3 : forall n (f : Field), In (n, f) [] -> cap n <> Ok "Id")
    by (intros n f []).
  split; [exact H1|]. split; [exact H2|]. split; [exact H3|].
  exact (parse_struct_last_wins Parser.init [("id", f_slot t_int32); ("size", f_slot t_uint8)]
           [] "Id" "Id" (f_slot t_text) res H1 H2 H3).
Defined.

(** ** The resolved mapping *)

Lemma parse_step_keys self name module self' :
  Parser.parse_step self name module = Ok self' ->
  ~ In name (dict_keys (Parser.nodes self)) ->
  dict_keys (Parser.nodes self')
    = dict_keys (Parser.nodes self)
        ++ (if is_type_module module then [name] else []).
Proof.
  intros H Hfresh. destruct module as [id fields|id enumerants|]; simpl in H.
  - apply bind_Ok_inv in H as (res & _ & H). injection H as <-. simpl.
    now rewrite dict_set_fresh, dict_keys_app.
  - apply bind_Ok_inv in H as (capped & _ & H). injection H as <-. simpl.
    now rewrite dict_set_fresh, dict_keys_app.
  - injection H as <-. simpl. now rewrite List.app_nil_r.
Qed.

Lemma parse_loop_keys schema : forall self self',
  List.NoDup (map fst schema) ->
  (forall k, In k (map fst schema) -> ~ In k (dict_keys (Parser.nodes self))) ->
  Parser.parse_loop self schema = Ok self' ->
  dict_keys (Parser.nodes self')
    = dict_keys (Parser.nodes self)
        ++ map fst (List.filter (fun entry => is_type_module (snd entry)) schema).
Proof.
  induction schema as [|[name module] rest IH]; simpl; intros self self' Hnd Hfresh H.
  - injection H as <-. now rewrite List.app_nil_r.
  - apply List.NoDup_cons_iff in Hnd as [Hname Hnd].
    apply bind_Ok_inv in H as (self1 & Hstep & H).
    assert (Hkeys := parse_step_keys _ _ _ _ Hstep (Hfresh name (or_introl eq_refl))).
    rewrite (IH self1 self' Hnd); [|clear IH|exact H].
    + rewrite Hkeys. destruct (is_type_module module); simpl;
        now rewrite <- List.app_assoc.
    + intros k Hk. rewrite Hkeys. intros Hin. apply in_app_or in Hin as [Hin|Hin].
      * apply (Hfresh k); [now right | exact Hin].
      * destruct (is_type_module module); simpl in Hin; [|contradiction].
        destruct Hin as [<-|[]]. contradiction.
Qed.

(** X6. The resolved mapping holds exactly the names of the struct and
    enum modules of the schema, in the order of the schema; every other
    attribute of the loaded schema is skipped. *)
Theorem resolved_names_in_order (schema : Schema) (self' : Parser.t) :
  List.NoDup (map fst schema) ->
  Parser.parse_loop Parser.init schema = Ok self' ->
  dict_keys (Parser.nodes self')
    = map fst (List.filter (fun entry => is_type_module (snd entry)) schema).
Proof.
  intros Hnd H.
  exact (parse_loop_keys schema Parser.init self' Hnd (fun k _ Hin => Hin) H).
Qed.

(** A schema with an attribute that is no type between two types. *)
Lemma resolved_names_in_order_witness :
  let schema := [ ("Inner", StructModule 20 [("x", f_slot t_int32)]);
                  ("schema", OtherAttr);
                  ("Color", EnumModule 10 ["notSet"; "red"]) ] in
  let self' := Parser.mk (<[20%Z := "Inner"]> ∅) (<[10%Z := "Color"]> ∅)
                 [("Inner", NDict [("X", "int32")]); ("Color", NList ["Red"])] in
  List.NoDup (map fst schema) /\
  Parser.parse_loop Parser.init schema = Ok self' /\
  dict_keys (Parser.nodes self') = ["Inner"; "Color"].
Proof.
  intros schema self'.
  assert (H1 : List.NoDup (map fst schema)) by (simpl; nodup_keys).
  assert (H2 : Parser.parse_loop Parser.init schema = Ok self') by reflexivity.
  split; [exact H1|]. split; [exact H2|].
  exact (resolved_names_in_order schema self' H1 H2).
Defined.

Lemma type_ok_set nodes pending name content type_ :
  dict_get nodes name = None ->
  (pending = None \/ (pending = Some name /\ exists fields, content = NDict fields)) ->
  type_ok nodes pending type_ ->
  type_ok (dict_set nodes name content) None type_.
Proof.
  intros Hfresh Hpending Hok.
  assert (Hkeep : forall k v, dict_get nodes k = Some v ->
                    dict_get (dict_set nodes name content) k = Some v).
  { intros k v Hk. rewrite dict_get_set_ne; [exact Hk | congruence]. }
  assert (Hpend : forall k, Some k = pending ->
                    exists fields, dict_get (dict_set nodes name content) k
                                   = Some (NDict fields)).
  { intros k Hk. destruct Hpending as [->|[-> [fields ->]]]; [discriminate|].
    injection Hk as ->. exists fields. apply dict_get_set_eq. }
  unfold type_ok in *.
  destruct Hok as [Hp|[[f Hf]|[[es Hes]|[Hplain|(inner & -> & Hinner)]]]].
  - right. left. now apply Hpend.
  - right. left. exists f. now apply Hkeep.
  - right. right. left. exists es. now apply Hkeep.
  - right. right. right. now left.
  - right. right. right. right. exists inner. split; [reflexivity|].
    destruct Hinner as [Hp|[[f Hf]|Hkind]].
    + right. left. now apply Hpend.
    + right. left. exists f. now apply Hkeep.
    + right. now right.
Qed.

Lemma get_list_type_inv self elementType inner :
  Parser.get_list_type self elementType = Ok inner ->
  (exists typeId, Parser.struct_ids self !! typeId = Some inner) \/
  inner = which elementType.
Proof.
  destruct elementType; simpl; try (intros [= <-]; now right).
  unfold subscript_id. destruct (Parser.struct_ids self !! typeId) eqn:Hn;
    [|discriminate].
  intros [= <-]. left. now exists typeId.
Qed.

Lemma resolve_type_ok self pending field type_ :
  (forall id n, Parser.struct_ids self !! id = Some n ->
     Some n = pending \/
     exists fields, dict_get (Parser.nodes self) n = Some (NDict fields)) ->
  (forall id n, Parser.enum_ids self !! id = Some n ->
     exists enumerants, dict_get (Parser.nodes self) n = Some (NList enumerants)) ->
  Parser.resolve_type self field = Ok type_ ->
  type_ok (Parser.nodes self) pending type_.
Proof.
  intros HA HB H.
  destruct (is_plain field) eqn:Hplain.
  { assert (Hwhich : Parser.resolve_type self field = Ok (which field))
      by (destruct field; try discriminate Hplain; reflexivity).
    rewrite Hwhich in H. injection H as <-.
    right. right. right. left. now exists field. }
  destruct field as [| | | | | | | | | | | | | |elementType|typeId|typeId|typeId|];
    try discriminate Hplain; simpl in H.
  - apply bind_Ok_inv in H as (inner & Hinner & H). injection H as <-.
    right. right. right. right. exists inner. split; [reflexivity|].
    destruct (get_list_type_inv _ _ _ Hinner) as [[typeId Hn]| ->].
    + destruct (HA _ _ Hn) as [Hp|Hrec]; [now left | right; now left].
    + right. right. now exists elementType.
  - unfold subscript_id in H.
    destruct (Parser.enum_ids self !! typeId) as [n|] eqn:Hn; [|discriminate].
    injection H as <-. right. right. left. exact (HB _ _ Hn).
  - unfold subscript_id in H.
    destruct (Parser.struct_ids self !! typeId) as [n|] eqn:Hn; [|discriminate].
    injection H as <-. destruct (HA _ _ Hn) as [Hp|Hrec]; [now left|].
    right. now left.
Qed.

Lemma parse_struct_loop_values self (P : string -> Prop) fields :
  (forall field type_, Parser.resolve_type self field = Ok type_ -> P type_) ->
  forall res res',
    (forall key type_, In (key, type_) res -> P type_) ->
    Parser.parse_struct_loop self fields res = Ok res' ->
    forall key type_, In (key, type_) res' -> P type_.
Proof.
  intros Hres. induction fields as [|[name field] rest IH]; simpl;
    intros res res' Hall H.
  - now injection H as <-.
  - apply bind_Ok_inv in H as (type_ & Hty & H).
    apply bind_Ok_inv in H as (k & _ & H).
    refine (IH _ _ _ H).
    intros key0 ty0 Hin. destruct (dict_set_In _ _ _ _ _ Hin) as [[_ ->]|Hold].
    + destruct field as [slot_type|typeId]; [|discriminate Hty].
      now apply (Hres slot_type).
    + now apply (Hall key0).
Qed.

Lemma parse_step_closed self name module self' :
  closed self None ->
  dict_get (Parser.nodes self) name = None ->
  Parser.parse_step self name module = Ok self' ->
  closed self' None.
Proof.
  intros (HA & HB & HC) Hfresh H.
  assert (Hkeep : forall content k v, dict_get (Parser.nodes self) k = Some v ->
                    dict_get (dict_set (Parser.nodes self) name content) k = Some v).
  { intros content k v Hk. rewrite dict_get_set_ne; [exact Hk | congruence]. }
  destruct module as [id fields|id enumerants|]; simpl in H.
  - apply bind_Ok_inv in H as (res & Hres & H). injection H as <-.
    set (self1 := Parser.mk (<[id:=name]> (Parser.struct_ids self))
                    (Parser.enum_ids self) (Parser.nodes self)) in *.
    assert (HA1 : forall id' n, Parser.struct_ids self1 !! id' = Some n ->
              Some n = Some name \/
              exists f, dict_get (Parser.nodes self1) n = Some (NDict f)).
    { intros id' n. simpl. destruct (decide (id = id')) as [<-|Hne].
      - rewrite lookup_insert_eq. intros [= <-]. now left.
      - rewrite lookup_insert_ne by exact Hne. intros Hn.
        destruct (HA _ _ Hn) as [Hp|Hrec]; [discriminate | now right]. }
    assert (Hvals : forall key type_, In (key, type_) res ->
              type_ok (Parser.nodes self1) (Some name) type_).
    { apply (parse_struct_loop_values self1 _ fields) with (res := []).
      - intros field type_. apply (resolve_type_ok self1 (Some name)); assumption.
      - intros key type_ [].
      - exact Hres. }
    repeat split; simpl.
    + intros id' n Hn. right. destruct (HA1 id' n Hn) as [[= ->]|[f Hf]].
      * exists res. apply dict_get_set_eq.
      * exists f. now apply Hkeep.
    + intros id' n Hn. destruct (HB _ _ Hn) as [es Hes]. exists es. now apply Hkeep.
    + intros sname fs key type_ Hin Hfield.
      destruct (dict_set_In _ _ _ _ _ Hin) as [[-> [= ->]]|Hold].
      * apply (type_ok_set _ (Some name)); [exact Hfresh | right; eauto|].
        now apply (Hvals key).
      * apply (type_ok_set _ None); [exact Hfresh | now left|].
        now apply (HC sname fs key).
  - apply bind_Ok_inv in H as (capped & _ & H). injection H as <-.
    repeat split; simpl.
    + intros id' n Hn. right. destruct (HA _ _ Hn) as [Hp|[f Hf]]; [discriminate|].
      exists f. now apply Hkeep.
    + intros id' n. destruct (decide (id = id')) as [<-|Hne].
      * rewrite lookup_insert_eq. intros [= <-]. eexists. apply dict_get_set_eq.
      * rewrite lookup_insert_ne by exact Hne. intros Hn.
        destruct (HB _ _ Hn) as [es Hes]. exists es. now apply Hkeep.
    + intros sname fs key type_ Hin Hfield.
      destruct (dict_set_In _ _ _ _ _ Hin) as [[_ [=]]|Hold].
      apply (type_ok_set _ None); [exact Hfresh | now left|].
      now apply (HC sname fs key).
  - injection H as <-. now repeat split.
Qed.

Lemma parse_loop_closed schema : forall self self',
  List.NoDup (map fst schema) ->
  (forall k, In k (map fst schema) -> dict_get (Parser.nodes self) k = None) ->
  closed self None ->
  Parser.parse_loop self schema = Ok self' ->
  closed self' None.
Proof.
  induction schema as [|[name module] rest IH]; simpl;
    intros self self' Hnd Hfresh Hclosed H.
  - now injection H as <-.
  - apply List.NoDup_cons_iff in Hnd as [Hname Hnd].
    apply bind_Ok_inv in H as (self1 & Hstep & H).
    apply (IH self1 self' Hnd); [| |exact H].
    + intros k Hk.
      rewrite (parse_step_nodes_other _ _ _ _ k Hstep) by (intros ->; contradiction).
      apply Hfresh. now right.
    + apply (parse_step_closed self name module); [exact Hclosed| |exact Hstep].
      apply Hfresh. now left.
Qed.

(** X7. A resolved mapping is closed.  Every name left in the struct id
    index is a record of the mapping and every name left in the enum id
    index is an enumeration of the mapping, so the generator recognises
    them; and every resolved field type is a record of the mapping, an
    enumeration of the mapping, a kind name, or [List(...)] around a
    record of the mapping or a kind name. *)
Theorem resolved_schema_closed (schema : Schema) (self' : Parser.t) :
  List.NoDup (map fst schema) ->
  Parser.parse_loop Parser.init schema = Ok self' ->
  let g := Generator.init (Parser.nodes self') in
  (forall id n, Parser.struct_ids self' !! id = Some n ->
     Generator.is_struct g n = true) /\
  (forall id n, Parser.enum_ids self' !! id = Some n ->
     Generator.is_enum g n = true) /\
  (forall sname fields key type_,
     dict_get (Parser.nodes self') sname = Some (NDict fields) ->
     In (key, type_) fields ->
     Generator.is_struct g type_ = true \/
     Generator.is_enum g type_ = true \/
     (exists t, is_plain t = true /\ type_ = which t) \/
     (exists inner,
        type_ = "List(" +:+ inner +:+ ")" /\
        (Generator.is_struct g inner = true \/ exists t, inner = which t))).
Proof.
  intros Hnd H g.
  assert (Hclosed : closed self' None).
  { apply (parse_loop_closed schema Parser.init self' Hnd); [reflexivity| |exact H].
    repeat split; simpl.
    - intros id n Hn. now rewrite lookup_empty in Hn.
    - intros id n Hn. now rewrite lookup_empty in Hn.
    - intros sname fields key type_ []. }
  destruct Hclosed as (HA & HB & HC).
  assert (Hrec : forall n f, dict_get (Parser.nodes self') n = Some (NDict f) ->
                   Generator.is_struct g n = true).
  { intros n f Hn. unfold Generator.is_struct. simpl. now rewrite Hn. }
  assert (Henum : forall n es, dict_get (Parser.nodes self') n = Some (NList es) ->
                    Generator.is_enum g n = true).
  { intros n es Hn. unfold Generator.is_enum. simpl. now rewrite Hn. }
  split; [|split].
  - intros id n Hn. destruct (HA _ _ Hn) as [Hp|[f Hf]]; [discriminate|].
    now apply (Hrec n f).
  - intros id n Hn. destruct (HB _ _ Hn) as [es Hes]. now apply (Henum n es).
  - intros sname fields key type_ Hs Hfield. apply dict_get_Some_In in Hs.
    destruct (HC sname fields key type_ Hs Hfield)
      as [Hp|[[f Hf]|[[es Hes]|[Hplain|(inner & -> & Hinner)]]]].
    + discriminate.
    + left. now apply (Hrec type_ f).
    + right. left. now apply (Henum type_ es).
    + right. right. now left.
    + right. right. right. exists inner. split; [reflexivity|].
      destruct Hinner as [Hp|[[f Hf]|Hkind]]; [discriminate| |now right].
      left. now apply (Hrec inner f).
Qed.

(** The sample schema: its record [Outer] refers to [Color] and [Inner]. *)
Lemma resolved_schema_closed_witness :
  let self' := Parser.mk (<[30%Z := "Outer"]> (<[20%Z := "Inner"]> ∅))
                         (<[10%Z := "Color"]> ∅) sample_nodes in
  let g := Generator.init (Parser.nodes self') in
  List.NoDup (map fst sample_schema) /\
  Parser.parse_loop Parser.init sample_schema = Ok self' /\
  (forall id n, Parser.struct_ids self' !! id = Some n ->
     Generator.is_struct g n = true) /\
  (forall id n, Parser.enum_ids self' !! id = Some n ->
     Generator.is_enum g n = true) /\
  (forall sname fields key type_,
     dict_get (Parser.nodes self') sname = Some (NDict fields) ->
     In (key, type_) fields ->
     Generator.is_struct g type_ = true \/
     Generator.is_enum g type_ = true \/
     (exists t, is_plain t = true /\ type_ = which t) \/
     (exists inner,
        type_ = "List(" +:+ inner +:+ ")" /\
        (Generator.is_struct g inner = true \/ exists t, inner = which t))).
Proof.
  intros self' g.
  assert (H1 : List.NoDup (map fst sample_schema)) by (simpl; nodup_keys).
  assert (H2 : Parser.parse_loop Parser.init sample_schema = Ok self')
    by reflexivity.
  split; [exact H1|]. split; [exact H2|].
  exact (resolved_schema_closed sample_schema self' H1 H2).
Defined.

Lemma cap_capitalised (s c : string) : cap s = Ok c -> capitalised c.
Proof.
  destruct s as [|a rest]; simpl; [discriminate|].
  intros [= <-]. simpl. apply upper_idempotent.
Qed.

Lemma cap_all_capitalised (enumerants capped : list string) :
  Parser.cap_all enumerants = Ok capped -> Forall capitalised capped.
Proof.
  intros H. apply cap_all_Forall2 in H.
  induction H as [|e c es cs Hc _ IH]; constructor; [|exact IH].
  now apply cap_capitalised with e.
Qed.

Lemma parse_struct_loop_keys_capitalised self fields : forall res res',
  (forall key type_, In (key, type_) res -> capitalised key) ->
  Parser.parse_struct_loop self fields res = Ok res' ->
  forall key type_, In (key, type_) res' -> capitalised key.
Proof.
  induction fields as [|[name field] rest IH]; simpl; intros res res' Hall H.
  - now injection H as <-.
  - apply bind_Ok_inv in H as (type_ & _ & H).
    apply bind_Ok_inv in H as (k & Hk & H).
    refine (IH _ _ _ H).
    intros key0 ty0 Hin. destruct (dict_set_In _ _ _ _ _ Hin) as [[-> _]|Hold].
    + now apply cap_capitalised with name.
    + now apply (Hall key0 ty0).
Qed.

Lemma parse_loop_capitalised schema : forall self self',
  (forall sname content, In (sname, content) (Parser.nodes self) ->
     match content with
     | NDict fields => forall key type_, In (key, type_) fields -> capitalised key
     | NList enumerants => Forall capitalised enumerants
     end) ->
  Parser.parse_loop self schema = Ok self' ->
  forall sname content, In (sname, content) (Parser.nodes self') ->
    match content with
    | NDict fields => forall key type_, In (key, type_) fields -> capitalised key
    | NList enumerants => Forall capitalised enumerants
    end.
Proof.
  induction schema as [|[name module] rest IH]; simpl; intros self self' Hinv H.
  - now injection H as <-.
  - apply bind_Ok_inv in H as (self1 & Hstep & H).
    refine (IH self1 self' _ H). clear IH H.
    destruct module as [id fields|id enumerants|]; simpl in Hstep.
    + apply bind_Ok_inv in Hstep as (res & Hres & Hstep). injection Hstep as <-.
      simpl. intros sname content Hin.
      destruct (dict_set_In _ _ _ _ _ Hin) as [[_ ->]|Hold]; [|now apply (Hinv sname)].
      unfold Parser.parse_struct in Hres.
      refine (parse_struct_loop_keys_capitalised _ fields [] res _ Hres).
      intros key type_ [].
    + apply bind_Ok_inv in Hstep as (capped & Hcap & Hstep). injection Hstep as <-.
      simpl. intros sname content Hin.
      destruct (dict_set_In _ _ _ _ _ Hin) as [[_ ->]|Hold]; [|now apply (Hinv sname)].
      apply cap_all_capitalised in Hcap.
      destruct Hcap as [|c cs _ Hcs]; [constructor | exact Hcs].
    + now injection Hstep as <-.
Qed.

(** X8. Every field key and every enumerant of a resolved mapping is
    capitalised: it is non-empty and its first character is not a
    lower-case letter, whatever the casing in the schema. *)
Theorem resolved_names_capitalised (schema : Schema) (self' : Parser.t) :
  Parser.parse_loop Parser.init schema = Ok self' ->
  (forall sname fields key type_,
     In (sname, NDict fields) (Parser.nodes self') ->
     In (key, type_) fields -> capitalised key) /\
  (forall ename enumerants enumerant,
     In (ename, NList enumerants) (Parser.nodes self') ->
     In enumerant enumerants -> capitalised enumerant).
Proof.
  intros H.
  assert (Hinv := parse_loop_capitalised schema Parser.init self'
                    (fun sname content (Hin : In (sname, content) []) =>
                       match Hin with end) H).
  split.
  - intros sname fields key type_ Hin. exact (Hinv sname (NDict fields) Hin key type_).
  - intros ename enumerants enumerant Hin He.
    specialize (Hinv ename (NList enumerants) Hin). simpl in Hinv.
    rewrite List.Forall_forall in Hinv. now apply Hinv.
Qed.

(** The sample schema, whose names all start in lower case. *)
Lemma resolved_names_capitalised_witness :
  let self' := Parser.mk (<[30%Z := "Outer"]> (<[20%Z := "Inner"]> ∅))
                         (<[10%Z := "Color"]> ∅) sample_nodes in
  Parser.parse_loop Parser.init sample_schema = Ok self' /\
  (forall sname fields key type_,
     In (sname, NDict fields) (Parser.nodes self') ->
     In (key, type_) fields -> capitalised key) /\
  (forall ename enumerants enumerant,
     In (ename, NList enumerants) (Parser.nodes self') ->
     In enumerant enumerants -> capitalised enumerant).
Proof.
  intros self'.
  assert (H : Parser.parse_loop Parser.init sample_schema = Ok self')
    by reflexivity.
  split; [exact H | exact (resolved_names_capitalised sample_schema self' H)].
Defined.

(** ** Accessor synthesis *)

Lemma comprehension_length f p (items : dict string) :
  length (Generator.comprehension f p items)
    = length (List.filter (fun nt => p (snd nt)) items).
Proof. unfold Generator.comprehension. apply List.length_map. Qed.

(** X9. A record gets as many Get methods as Has methods and as many Set
    methods: one of each for every field that is basic, one for every
    field that is a record and one for every field that is an
    enumeration.  It gets one Mutable method for every field that is a
    record, so never more Mutable methods than Get methods. *)
Theorem accessor_counts (g : Generator.t) (struct_name : string)
    (fields : dict string) :
  dict_get (Generator.nodes g) struct_name = Some (NDict fields) ->
  exists gets sets has mutables,
    Generator.generate_get_methods g struct_name = Ok gets /\
    Generator.generate_set_methods g struct_name = Ok sets /\
    Generator.generate_has_methods g struct_name = Ok has /\
    Generator.generate_mutable_methods g struct_name = Ok mutables /\
    length gets
      = (length (List.filter (fun nt => Generator.is_basic_type (snd nt)) fields)
         + length (List.filter (fun nt => Generator.is_struct g (snd nt)) fields)
         + length (List.filter (fun nt => Generator.is_enum g (snd nt)) fields))%nat /\
    length sets = length gets /\
    length has = length gets /\
    length mutables
      = length (List.filter (fun nt => Generator.is_struct g (snd nt)) fields) /\
    (length mutables <= length gets)%nat.
Proof.
  intros H. apply items_Ok in H.
  unfold Generator.generate_get_methods, Generator.generate_set_methods,
    Generator.generate_has_methods, Generator.generate_mutable_methods.
  rewrite H. simpl. eexists _, _, _, _. repeat (split; [reflexivity|]).
  rewrite !List.length_app, !comprehension_length.
  repeat split; lia.
Qed.

(** The record [Outer] of the sample mapping: two basic fields, a record
    and an enumeration; its two list fields get nothing. *)
Lemma accessor_counts_witness :
  let g := Generator.init sample_nodes in
  let fields := [ ("Color", "Color"); ("Inner", "Inner"); ("Count", "uint64");
                  ("Items", "List(Inner)"); ("Nums", "List(int32)");
                  ("Name", "text") ] in
  dict_get (Generator.nodes g) "Outer" = Some (NDict fields) /\
  exists gets sets has mutables,
    Generator.generate_get_methods g "Outer" = Ok gets /\
    Generator.generate_set_methods g "Outer" = Ok sets /\
    Generator.generate_has_methods g "Outer" = Ok has /\
    Generator.generate_mutable_methods g "Outer" = Ok mutables /\
    length gets
      = (length (List.filter (fun nt => Generator.is_basic_type (snd nt)) fields)
         + length (List.filter (fun nt => Generator.is_struct g (snd nt)) fields)
         + length (List.filter (fun nt => Generator.is_enum g (snd nt)) fields))%nat /\
    length sets = length gets /\
    length has = length gets /\
    length mutables
      = length (List.filter (fun nt => Generator.is_struct g (snd nt)) fields) /\
    (length mutables <= length gets)%nat.
Proof.
  intros g fields.
  assert (H : dict_get (Generator.nodes g) "Outer" = Some (NDict fields))
    by reflexivity.
  split; [exact H | exact (accessor_counts g "Outer" fields H)].
Defined.

(** X10. For every field of a kind of [CAPNP_BASIC_TYPES] the record gets
    the Get method that returns the base getter's value typed as the
    mapped host type, and the Set method that takes a value of the host
    type and hands it to the base setter unchanged. *)
Theorem basic_field_accessors (g : Generator.t)
    (struct_name name type_ host : string) (fields : dict string) :
  dict_get (Generator.nodes g) struct_name = Some (NDict fields) ->
  In (name, type_) fields ->
  dict_get CAPNP_BASIC_TYPES type_ = Some host ->
  exists gets sets,
    Generator.generate_get_methods g struct_name = Ok gets /\
    In (host +:+ " Get" +:+ name +:+ "() const { return get" +:+ name +:+ "(); }")
       gets /\
    Generator.generate_set_methods g struct_name = Ok sets /\
    In ("void Set" +:+ name +:+ "(const " +:+ host +:+ "& value) { return set"
          +:+ name +:+ "(value); }") sets.
Proof.
  intros Hstruct Hfield Hhost. apply items_Ok in Hstruct.
  assert (His : Generator.is_basic_type type_ = true)
    by (unfold Generator.is_basic_type, dict_mem; now rewrite Hhost).
  assert (Hty : Generator.basic_type type_ = host)
    by (unfold Generator.basic_type; now rewrite Hhost).
  unfold Generator.generate_get_methods, Generator.generate_set_methods.
  rewrite Hstruct. simpl. eexists _, _.
  split; [reflexivity|]. split; [|split; [reflexivity|]].
  - apply in_or_app. left. rewrite <- Hty.
    exact (comprehension_In
             (fun name type_ => Generator.get_template name (Generator.basic_type type_))
             _ fields name type_ Hfield His).
  - apply in_or_app. left. rewrite <- Hty.
    exact (comprehension_In
             (fun name type_ => Generator.set_basic_template name
                                  (Generator.basic_type type_))
             _ fields name type_ Hfield His).
Qed.

(** The field [Name] of kind [text], whose host type is [std::string]. *)
Lemma basic_field_accessors_witness :
  let g := Generator.init sample_nodes in
  let fields := [ ("Color", "Color"); ("Inner", "Inner"); ("Count", "uint64");
                  ("Items", "List(Inner)"); ("Nums", "List(int32)");
                  ("Name", "text") ] in
  dict_get (Generator.nodes g) "Outer" = Some (NDict fields) /\
  In ("Name", "text") fields /\
  dict_get CAPNP_BASIC_TYPES "text" = Some "std::string" /\
  exists gets sets,
    Generator.generate_get_methods g "Outer" = Ok gets /\
    In ("std::string" +:+ " Get" +:+ "Name" +:+ "() const { return get" +:+ "Name"
          +:+ "(); }") gets /\
    Generator.generate_set_methods g "Outer" = Ok sets /\
    In ("void Set" +:+ "Name" +:+ "(const " +:+ "std::string"
          +:+ "& value) { return set" +:+ "Name" +:+ "(value); }") sets.
Proof.
  intros g fields.
  assert (H1 : dict_get (Generator.nodes g) "Outer" = Some (NDict fields))
    by reflexivity.
  assert (H2 : In ("Name", "text") fields) by (simpl; tauto).
  assert (H3 : dict_get CAPNP_BASIC_TYPES "text" = Some "std::string")
    by reflexivity.
  split; [exact H1|]. split; [exact H2|]. split; [exact H3|].
  exact (basic_field_accessors g "Outer" "Name" "text" "std::string" fields
           H1 H2 H3).
Defined.

Lemma occurs_refl (piece : string) : occurs piece piece.
Proof. exists "", "". now rewrite append_nil_r. Qed.

Lemma occurs_app_l (piece s t : string) : occurs piece s -> occurs piece (s +:+ t).
Proof.
  intros (a & b & ->). exists a, (b +:+ t). now rewrite !append_assoc.
Qed.

Lemma occurs_app_r (piece s t : string) : occurs piece t -> occurs piece (s +:+ t).
Proof.
  intros (a & b & ->). exists (s +:+ a), b. now rewrite !append_assoc.
Qed.

Lemma occurs_trans (a b c : string) : occurs a b -> occurs b c -> occurs a c.
Proof.
  intros Hab (p & q & ->). apply occurs_app_r. now apply occurs_app_l.
Qed.

Lemma join_In (sep x : string) (xs : list string) :
  In x xs -> occurs x (join sep xs).
Proof.
  induction xs as [|y ys IH]; [contradiction|].
  intros Hin. destruct ys as [|z zs].
  - destruct Hin as [->|[]]. apply occurs_refl.
  - change (join sep (y :: z :: zs)) with (y +:+ sep +:+ join sep (z :: zs)).
    destruct Hin as [->|Hin].
    + apply occurs_app_l. apply occurs_refl.
    + apply occurs_app_r. apply occurs_app_r. now apply IH.
Qed.

(** X11. For every field whose type is a record of the mapping the record
    gets the Get method that returns the field's [Reader], the Set method
    that forwards the value's capnp base, the Has method that asks the
    base [has] method, the Mutable method that returns the field's
    [Builder], and the using declaration that re-exposes the base
    builder's getter the Mutable method calls. *)
Theorem record_field_accessors (g : Generator.t)
    (struct_name name type_ : string) (fields : dict string) :
  dict_get (Generator.nodes g) struct_name = Some (NDict fields) ->
  In (name, type_) fields ->
  Generator.is_struct g type_ = true ->
  exists gets sets has mutables,
    Generator.generate_get_methods g struct_name = Ok gets /\
    In (type_ +:+ "::Reader Get" +:+ name +:+ "() const { return get" +:+ name
          +:+ "(); }") gets /\
    Generator.generate_set_methods g struct_name = Ok sets /\
    In ("void Set" +:+ name +:+ "(const " +:+ type_
          +:+ "::Reader& value) { return set" +:+ name
          +:+ "(value.GetCapnpBase()); }") sets /\
    Generator.generate_has_methods g struct_name = Ok has /\
    In ("bool Has" +:+ name +:+ "() const { return has" +:+ name +:+ "(); }") has /\
    Generator.generate_mutable_methods g struct_name = Ok mutables /\
    In (type_ +:+ "::Builder Mutable" +:+ name +:+ "() { return get" +:+ name
          +:+ "(); }") mutables /\
    occurs ("using NKikimrCapnProto_::" +:+ struct_name +:+ "::Builder::get"
              +:+ name +:+ ";")
           (Generator.generate_using_builder_methods g struct_name fields).
Proof.
  intros Hstruct Hfield His. apply items_Ok in Hstruct.
  unfold Generator.generate_get_methods, Generator.generate_set_methods,
    Generator.generate_has_methods, Generator.generate_mutable_methods.
  rewrite Hstruct. simpl. eexists _, _, _, _.
  split; [reflexivity|]. split; [|split; [reflexivity|]].
  { apply in_or_app. right. apply in_or_app. left.
    assert (Hin := comprehension_In
                     (fun name type_ => Generator.get_template name
                                          (type_ +:+ "::Reader"))
                     _ fields name type_ Hfield His).
    unfold Generator.get_template in Hin. simpl in Hin.
    now rewrite append_assoc in Hin. }
  split; [|split; [reflexivity|]].
  { apply in_or_app. right. apply in_or_app. left.
    exact (comprehension_In Generator.set_struct_template _ fields name type_
             Hfield His). }
  split; [|split; [reflexivity|]].
  { apply in_or_app. left.
    exact (comprehension_In Generator.has_struct_template _ fields name type_
             Hfield His). }
  split.
  { exact (comprehension_In Generator.mutable_template _ fields name type_
             Hfield His). }
  unfold Generator.generate_using_builder_methods. apply join_In.
  exact (comprehension_In (Generator.using_template struct_name) _ fields name type_
           Hfield His).
Qed.

(** The field [Inner] of the record [Outer] of the sample mapping. *)
Lemma record_field_accessors_witness :
  let g := Generator.init sample_nodes in
  let fields := [ ("Color", "Color"); ("Inner", "Inner"); ("Count", "uint64");
                  ("Items", "List(Inner)"); ("Nums", "List(int32)");
                  ("Name", "text") ] in
  dict_get (Generator.nodes g) "Outer" = Some (NDict fields) /\
  In ("Inner", "Inner") fields /\
  Generator.is_struct g "Inner" = true /\
  exists mutables,
    Generator.generate_mutable_methods g "Outer" = Ok mutables /\
    In "Inner::Builder MutableInner() { return getInner(); }" mutables /\
    occurs "using NKikimrCapnProto_::Outer::Builder::getInner;"
           (Generator.generate_using_builder_methods g "Outer" fields).
Proof.
  intros g fields.
  assert (H1 : dict_get (Generator.nodes g) "Outer" = Some (NDict fields))
    by reflexivity.
  assert (H2 : In ("Inner", "Inner") fields) by (simpl; tauto).
  assert (H3 : Generator.is_struct g "Inner" = true) by reflexivity.
  split; [exact H1|]. split; [exact H2|]. split; [exact H3|].
  destruct (record_field_accessors g "Outer" "Inner" "Inner" fields H1 H2 H3)
    as (gets & sets & has & mutables & _ & _ & _ & _ & _ & _ & Hm & Hin & Hu).
  exists mutables. split; [exact Hm|]. split; [exact Hin | exact Hu].
Defined.

Ltac find_piece :=
  repeat first [ apply occurs_app_l; apply occurs_refl | apply occurs_app_r ].

Lemma generate_reader_occurs g name fields reader :
  Generator.generate_reader g name fields = Ok reader ->
  exists gets has,
    Generator.generate_get_methods g name = Ok gets /\
    Generator.generate_has_methods g name = Ok has /\
    forall m, In m gets \/ In m has -> occurs m reader.
Proof.
  unfold Generator.generate_reader. intros H.
  apply bind_Ok_inv in H as (gets & Hgets & H).
  apply bind_Ok_inv in H as (has & Hhas & H). apply Ok_inj in H. subst reader.
  exists gets, has. split; [exact Hgets|]. split; [exact Hhas|].
  intros m Hm. apply join_In.
  apply in_or_app. right. apply in_or_app.
  destruct Hm as [Hm|Hm]; [now left|]. right. apply in_or_app. now left.
Qed.

Lemma generate_builder_occurs g name fields builder :
  Generator.generate_builder g name fields = Ok builder ->
  exists sets mutables,
    Generator.generate_set_methods g name = Ok sets /\
    Generator.generate_mutable_methods g name = Ok mutables /\
    forall m, In m sets \/ In m mutables -> occurs m builder.
Proof.
  unfold Generator.generate_builder. intros H.
  apply bind_Ok_inv in H as (sets & Hsets & H).
  apply bind_Ok_inv in H as (mutables & Hmut & H). apply Ok_inj in H.
  subst builder. exists sets, mutables. split; [exact Hsets|]. split; [exact Hmut|].
  intros m Hm. apply join_In.
  apply in_or_app. right. apply in_or_app. right. apply in_or_app.
  destruct Hm as [Hm|Hm]; [now left|]. right. apply in_or_app. now left.
Qed.

Lemma generate_struct_occurs g name fields block :
  Generator.generate_struct g name fields = Ok block ->
  exists reader builder,
    Generator.generate_reader g name fields = Ok reader /\
    Generator.generate_builder g name fields = Ok builder /\
    occurs reader block /\ occurs builder block /\
    occurs (Generator.generate_using_builder_methods g name fields) block.
Proof.
  unfold Generator.generate_struct. intros H.
  apply bind_Ok_inv in H as (reader & Hreader & H).
  apply bind_Ok_inv in H as (builder & Hbuilder & H). apply Ok_inj in H.
  subst block. exists reader, builder. split; [exact Hreader|]. split; [exact Hbuilder|].
  split; [|split]; find_piece.
Qed.

(** X12. Every accessor method synthesised for a record of the mapping is
    printed: the text returned by [generate] contains each Get, Has, Set
    and Mutable method of the record, and its using declarations. *)
Theorem accessors_in_output (nodes : dict Node) (struct_name : string)
    (fields : dict string) (methods : list string) (m : string) :
  List.NoDup (dict_keys nodes) ->
  In (struct_name, NDict fields) nodes ->
  let g := Generator.init nodes in
  Generator.generate_get_methods g struct_name = Ok methods \/
  Generator.generate_has_methods g struct_name = Ok methods \/
  Generator.generate_set_methods g struct_name = Ok methods \/
  Generator.generate_mutable_methods g struct_name = Ok methods ->
  In m methods ->
  exists text,
    Generator.generate g nodes = Ok text /\
    occurs m text /\
    occurs (Generator.generate_using_builder_methods g struct_name fields) text.
Proof.
  intros Hnd Hin g Hmethods Hm.
  destruct (generate_blocks nodes Hnd) as (blocks & Hblocks & Hgen).
  destruct (blocks_split _ _ _ _ Hblocks Hin)
    as (before & block & after & Hblock & Hsplit).
  unfold block_of in Hblock. simpl in Hblock.
  destruct (generate_struct_occurs _ _ _ _ Hblock)
    as (reader & builder & Hreader & Hbuilder & Hr & Hb & Hu).
  assert (Hblock_text : occurs block (concat_str blocks))
    by (now exists before, after).
  exists (concat_str blocks). split; [exact Hgen|].
  split; [|exact (occurs_trans _ _ _ Hu Hblock_text)].
  apply (occurs_trans _ block); [|exact Hblock_text].
  destruct (generate_reader_occurs _ _ _ _ Hreader) as (gets & has & Hg & Hh & Hrm).
  destruct (generate_builder_occurs _ _ _ _ Hbuilder)
    as (sets & mutables & Hs & Hmu & Hbm).
  fold g in Hg, Hh, Hs, Hmu.
  destruct Hmethods as [H|[H|[H|H]]].
  - apply (occurs_trans _ reader); [|exact Hr]. apply Hrm. left. congruence.
  - apply (occurs_trans _ reader); [|exact Hr]. apply Hrm. right. congruence.
  - apply (occurs_trans _ builder); [|exact Hb]. apply Hbm. left. congruence.
  - apply (occurs_trans _ builder); [|exact Hb]. apply Hbm. right. congruence.
Qed.

(** The enumeration Set method of the field [Color] of the sample mapping. *)
Lemma accessors_in_output_witness :
  let g := Generator.init sample_nodes in
  let fields := [ ("Color", "Color"); ("Inner", "Inner"); ("Count", "uint64");
                  ("Items", "List(Inner)"); ("Nums", "List(int32)");
                  ("Name", "text") ] in
  let m := "void SetColor(const Color& value) { return setColor(static_cast<NKikimrCapnProto_::Color>(static_cast<size_t>(value) + 1)); }" in
  List.NoDup (dict_keys sample_nodes) /\
  In ("Outer", NDict fields) sample_nodes /\
  (exists methods,
     Generator.generate_set_methods g "Outer" = Ok methods /\ In m methods) /\
  exists text, Generator.generate g sample_nodes = Ok text /\ occurs m text.
Proof.
  intros g fields m.
  assert (H1 : List.NoDup (dict_keys sample_nodes)) by (simpl; nodup_keys).
  assert (H2 : In ("Outer", NDict fields) sample_nodes) by (simpl; tauto).
  assert (H3 : exists methods,
            Generator.generate_set_methods g "Outer" = Ok methods /\ In m methods).
  { eexists. split; [reflexivity|]. simpl. tauto. }
  split; [exact H1|]. split; [exact H2|]. split; [exact H3|].
  destruct H3 as (methods & Hset & Hm).
  destruct (accessors_in_output sample_nodes "Outer" fields methods m H1 H2
              (or_intror (or_intror (or_introl Hset))) Hm)
    as (text & Hgen & Hocc & _).
  exists text. split; [exact Hgen | exact Hocc].
Defined.

Lemma names_In_filter (p : Node -> bool) (nodes : dict Node) (n : string) :
  List.NoDup (dict_keys nodes) ->
  In n (map fst (List.filter (fun nc => p (snd nc)) nodes)) <->
  exists content, dict_get nodes n = Some content /\ p content = true.
Proof.
  intros Hnd. rewrite in_map_iff. split.
  - intros ([k content] & <- & Hin). apply List.filter_In in Hin as [Hin Hp].
    exists content. split; [now apply dict_get_In | exact Hp].
  - intros (content & Hget & Hp). exists (n, content). split; [reflexivity|].
    apply List.filter_In. split; [now apply dict_get_Some_In | exact Hp].
Qed.

(** X13. The lists [enum_names] and [struct_names] a generator is built
    with split the names of the mapping: a name is in [enum_names]
    exactly when [is_enum] holds of it, in [struct_names] exactly when
    [is_struct] holds of it, every name of the mapping is in one of the
    two lists and none is in both. *)
Theorem init_names_partition (nodes : dict Node) (n : string) :
  List.NoDup (dict_keys nodes) ->
  let g := Generator.init nodes in
  (In n (Generator.enum_names g) <-> Generator.is_enum g n = true) /\
  (In n (Generator.struct_names g) <-> Generator.is_struct g n = true) /\
  (In n (dict_keys nodes) <->
     In n (Generator.enum_names g) \/ In n (Generator.struct_names g)) /\
  ~ (In n (Generator.enum_names g) /\ In n (Generator.struct_names g)).
Proof.
  intros Hnd g.
  assert (He : In n (Generator.enum_names g) <-> Generator.is_enum g n = true).
  { unfold g. simpl. rewrite (names_In_filter Generator.is_list nodes n Hnd).
    unfold Generator.is_enum. simpl. destruct (dict_get nodes n) as [content|].
    - split; [intros (c & [= <-] & Hc); exact Hc | intros Hc; eauto].
    - split; [intros (c & [=] & _) | discriminate]. }
  assert (Hs : In n (Generator.struct_names g) <-> Generator.is_struct g n = true).
  { unfold g. simpl. rewrite (names_In_filter Generator.is_dict nodes n Hnd).
    unfold Generator.is_struct. simpl. destruct (dict_get nodes n) as [content|].
    - split; [intros (c & [= <-] & Hc); exact Hc | intros Hc; eauto].
    - split; [intros (c & [=] & _) | discriminate]. }
  split; [exact He|]. split; [exact Hs|]. rewrite He, Hs.
  unfold Generator.is_enum, Generator.is_struct, g. simpl. split; [split|].
  - intros Hin. destruct (dict_get nodes n) as [[f|es]|] eqn:Hget; simpl; auto.
    now apply dict_get_None_keys in Hget.
  - destruct (dict_get nodes n) as [content|] eqn:Hget.
    + intros _. apply dict_get_Some_In in Hget. now apply dict_keys_In with content.
    + intros [H|H]; discriminate.
  - destruct (dict_get nodes n) as [[f|es]|]; simpl; intros [H1 H2]; discriminate.
Qed.

(** The names of the sample mapping. *)
Lemma init_names_partition_witness :
  let g := Generator.init sample_nodes in
  List.NoDup (dict_keys sample_nodes) /\
  Generator.enum_names g = ["Color"] /\
  Generator.struct_names g = ["Inner"; "Outer"] /\
  (In "Outer" (Generator.struct_names g) <-> Generator.is_struct g "Outer" = true) /\
  ~ (In "Outer" (Generator.enum_names g) /\ In "Outer" (Generator.struct_names g)).
Proof.
  intros g.
  assert (H : List.NoDup (dict_keys sample_nodes)) by (simpl; nodup_keys).
  split; [exact H|]. split; [reflexivity|]. split; [reflexivity|].
  destruct (init_names_partition sample_nodes "Outer" H) as (_ & Hs & _ & Hx).
  split; [exact Hs | exact Hx].
Defined.

(** ** The program *)

(** X14. A run either prints the whole generated text followed by a
    newline, or prints nothing.  It prints nothing exactly when the
    loader or the resolver raised, and the exception is then the
    loader's, or the resolver's lookup error, index error or the error of
    a field without a slot; after a successful resolution the generator
    never fails. *)
Theorem main_all_or_nothing (capnp_load : string -> Result Schema)
    (argv : list string) :
  (exists nodes text,
     Parser.parse capnp_load Parser.init (schema_path argv) = Ok nodes /\
     Generator.generate (Generator.init nodes) nodes = Ok text /\
     main capnp_load argv = mkOutcome (text +:+ nl) None) \/
  (exists e,
     Parser.parse capnp_load Parser.init (schema_path argv) = Raise e /\
     (capnp_load (schema_path argv) = Raise e \/
      e = KeyError \/ e = IndexError \/ e = KjException) /\
     main capnp_load argv = mkOutcome "" (Some e)).
Proof.
  unfold main, Parser.parse.
  destruct (capnp_load (schema_path argv)) as [schema|e] eqn:Hload; simpl.
  - destruct (Parser.parse_loop Parser.init schema) as [self'|e] eqn:Hparse; simpl.
    + left.
      assert (Hkeys : List.NoDup (dict_keys (Parser.nodes self')))
        by (apply (parse_loop_NoDup schema Parser.init self');
              [constructor | exact Hparse]).
      destruct (generate_blocks _ Hkeys) as (blocks & _ & Hgen).
      exists (Parser.nodes self'), (concat_str blocks). rewrite Hgen. auto.
    + right. exists e. split; [reflexivity|]. split; [|reflexivity].
      right. destruct (parse_loop_error _ _ _ Hparse) as [[-> | ->]|[-> _]]; auto.
  - right. exists e. auto.
Qed.

Lemma parse_loop_skips schema : forall self,
  Forall (fun entry => is_type_module (snd entry) = false) schema ->
  Parser.parse_loop self schema = Ok self.
Proof.
  induction schema as [|[name module] rest IH]; intros self Hall; [reflexivity|].
  apply List.Forall_cons_iff in Hall as [Hmod Hall].
  destruct module; try discriminate Hmod. simpl. now apply IH.
Qed.

(** X15. A schema that declares no struct and no enum resolves to the empty
    mapping, and the run prints a single newline. *)
Theorem main_without_types (capnp_load : string -> Result Schema)
    (argv : list string) (schema : Schema) :
  capnp_load (schema_path argv) = Ok schema ->
  Forall (fun entry => is_type_module (snd entry) = false) schema ->
  Parser.parse capnp_load Parser.init (schema_path argv) = Ok [] /\
  main capnp_load argv = mkOutcome nl None.
Proof.
  intros Hload Hall. unfold main, Parser.parse. rewrite Hload. simpl.
  rewrite (parse_loop_skips schema Parser.init Hall). simpl. split; reflexivity.
Qed.

(** A schema file that holds only a constant. *)
Lemma main_without_types_witness :
  let schema := [("limit", OtherAttr)] in
  load_const schema (schema_path ["main.py"]) = Ok schema /\
  Forall (fun entry => is_type_module (snd entry) = false) schema /\
  Parser.parse (load_const schema) Parser.init (schema_path ["main.py"]) = Ok [] /\
  main (load_const schema) ["main.py"] = mkOutcome nl None.
Proof.
  intros schema.
  assert (H1 : load_const schema (schema_path ["main.py"]) = Ok schema)
    by reflexivity.
  assert (H2 : Forall (fun entry => is_type_module (snd entry) = false) schema)
    by (repeat constructor).
  split; [exact H1|]. split; [exact H2|].
  exact (main_without_types (load_const schema) ["main.py"] schema H1 H2).
Defined.

(** ** The id indexes *)

Lemma parse_step_ids self name module self' :
  Parser.parse_step self name module = Ok self' ->
  Parser.struct_ids self'
    = match module with
      | StructModule id _ => <[id := name]> (Parser.struct_ids self)
      | _ => Parser.struct_ids self
      end /\
  Parser.enum_ids self'
    = match module with
      | EnumModule id _ => <[id := name]> (Parser.enum_ids self)
      | _ => Parser.enum_ids self
      end.
Proof.
  intros H. destruct module as [id fields|id enumerants|]; simpl in H.
  - apply bind_Ok_inv in H as (res & _ & H). now injection H as <-.
  - apply bind_Ok_inv in H as (capped & _ & H). now injection H as <-.
  - now injection H as <-.
Qed.

Lemma parse_loop_ids_other schema : forall self self',
  Parser.parse_loop self schema = Ok self' ->
  (forall id, ~ In id (declared_struct_ids schema) ->
     Parser.struct_ids self' !! id = Parser.struct_ids self !! id) /\
  (forall id, ~ In id (declared_enum_ids schema) ->
     Parser.enum_ids self' !! id = Parser.enum_ids self !! id).
Proof.
  induction schema as [|[name module] rest IH]; simpl; intros self self' H.
  - injection H as <-. now split.
  - apply bind_Ok_inv in H as (self1 & Hstep & H).
    destruct (IH _ _ H) as [IHs IHe].
    destruct (parse_step_ids _ _ _ _ Hstep) as [Hs He].
    split; intros id Hid.
    + rewrite IHs by (intros Hin; apply Hid; apply in_or_app; now right).
      rewrite Hs. destruct module as [id0 fields| |]; try reflexivity.
      apply lookup_insert_ne. intros ->. apply Hid. simpl. now left.
    + rewrite IHe by (intros Hin; apply Hid; apply in_or_app; now right).
      rewrite He. destruct module as [|id0 enumerants|]; try reflexivity.
      apply lookup_insert_ne. intros ->. apply Hid. simpl. now left.
Qed.

(** X16. After a resolution that succeeds, every struct id declared once
    in the schema is registered under the name of its module, and so is
    every enum id declared once: later fields that refer to it resolve to
    that name. *)
Theorem declared_ids_registered (schema : Schema) (self' : Parser.t) :
  Parser.parse_loop Parser.init schema = Ok self' ->
  (List.NoDup (declared_struct_ids schema) ->
   forall name id fields,
     In (name, StructModule id fields) schema ->
     Parser.struct_ids self' !! id = Some name /\
     Parser.resolve_type self' (t_struct id) = Ok name /\
     Parser.resolve_type self' (t_list (t_struct id)) = Ok ("List(" +:+ name +:+ ")")) /\
  (List.NoDup (declared_enum_ids schema) ->
   forall name id enumerants,
     In (name, EnumModule id enumerants) schema ->
     Parser.enum_ids self' !! id = Some name /\
     Parser.resolve_type self' (t_enum id) = Ok name).
Proof.
  generalize Parser.init. revert self'.
  induction schema as [|[name0 module] rest IH]; simpl; intros self' self H.
  - split; intros _ ? ? ? [].
  - apply bind_Ok_inv in H as (self1 & Hstep & H).
    destruct (IH _ _ H) as [IHs IHe].
    destruct (parse_loop_ids_other _ _ _ H) as [Hos Hoe].
    destruct (parse_step_ids _ _ _ _ Hstep) as [Hs He].
    split.
    + intros Hnd name id fields [Heq|Hin].
      * injection Heq as -> ->. simpl in Hnd.
        apply List.NoDup_cons_iff in Hnd as [Hfresh _].
        assert (Hreg : Parser.struct_ids self' !! id = Some name)
          by (rewrite (Hos id Hfresh), Hs; apply lookup_insert_eq).
        split; [exact Hreg|]. simpl. unfold subscript_id. now rewrite Hreg.
      * apply (IHs ltac:(now apply List.NoDup_app_remove_l in Hnd) name id fields Hin).
    + intros Hnd name id enumerants [Heq|Hin].
      * injection Heq as -> ->. simpl in Hnd.
        apply List.NoDup_cons_iff in Hnd as [Hfresh _].
        assert (Hreg : Parser.enum_ids self' !! id = Some name)
          by (rewrite (Hoe id Hfresh), He; apply lookup_insert_eq).
        split; [exact Hreg|]. simpl. unfold subscript_id. now rewrite Hreg.
      * apply (IHe ltac:(now apply List.NoDup_app_remove_l in Hnd) name id
                 enumerants Hin).
Qed.

(** The sample schema, whose ids are 10, 20 and 30. *)
Lemma declared_ids_registered_witness :
  let self' := Parser.mk (<[30%Z := "Outer"]> (<[20%Z := "Inner"]> ∅))
                         (<[10%Z := "Color"]> ∅) sample_nodes in
  Parser.parse_loop Parser.init sample_schema = Ok self' /\
  List.NoDup (declared_struct_ids sample_schema) /\
  In ("Inner", StructModule 20 [("x", f_slot t_int32)]) sample_schema /\
  Parser.struct_ids self' !! 20%Z = Some "Inner" /\
  Parser.resolve_type self' (t_struct 20) = Ok "Inner" /\
  Parser.resolve_type self' (t_list (t_struct 20)) = Ok ("List(" +:+ "Inner" +:+ ")").
Proof.
  intros self'.
  assert (H1 : Parser.parse_loop Parser.init sample_schema = Ok self')
    by reflexivity.
  assert (H2 : List.NoDup (declared_struct_ids sample_schema)).
  { simpl. repeat (apply List.NoDup_cons; [simpl; intuition lia|]).
    apply List.NoDup_nil. }
  assert (H3 : In ("Inner", StructModule 20 [("x", f_slot t_int32)]) sample_schema)
    by (simpl; tauto).
  split; [exact H1|]. split; [exact H2|]. split; [exact H3|].
  exact (proj1 (declared_ids_registered sample_schema self' H1) H2
           "Inner" 20%Z [("x", f_slot t_int32)] H3).
Defined.

(** ** The accessors of an enumeration field, continued *)

Lemma GetEnum_unset size_bits enum_bits :
  (0 < enum_bits <= size_bits)%Z ->
  Wrapper.GetEnum size_bits enum_bits 0 = (-1)%Z.
Proof.
  intros Hbits.
  assert (Hs : (0 < 2 ^ size_bits)%Z) by (apply Z.pow_pos_nonneg; lia).
  assert (He : (0 < 2 ^ enum_bits)%Z) by (apply Z.pow_pos_nonneg; lia).
  assert (Hhalf : (2 ^ enum_bits = 2 * 2 ^ (enum_bits - 1))%Z).
  { replace enum_bits with (Z.succ (enum_bits - 1)) at 1 by lia.
    apply Z.pow_succ_r. lia. }
  assert (Hh : (0 < 2 ^ (enum_bits - 1))%Z) by (apply Z.pow_pos_nonneg; lia).
  assert (Hsplit : (2 ^ size_bits = 2 ^ (size_bits - enum_bits) * 2 ^ enum_bits)%Z).
  { rewrite <- Z.pow_add_r by lia. f_equal. lia. }
  assert (Hq : (0 < 2 ^ (size_bits - enum_bits))%Z) by (apply Z.pow_pos_nonneg; lia).
  unfold Wrapper.GetEnum, Wrapper.to_enum, Wrapper.to_size_t.
  rewrite Z.mod_0_l by lia.
  assert (H1 : ((0 - 1) mod 2 ^ size_bits = 2 ^ size_bits - 1)%Z).
  { symmetry. apply (Z.mod_unique _ _ (-1)); lia. }
  rewrite H1.
  assert (H2 : ((2 ^ size_bits - 1) mod 2 ^ enum_bits = 2 ^ enum_bits - 1)%Z).
  { symmetry. apply (Z.mod_unique _ _ (2 ^ (size_bits - enum_bits) - 1)); [lia|].
    rewrite Hsplit. ring. }
  rewrite H2.
  destruct (Z.ltb_spec (2 ^ enum_bits - 1) (2 ^ (enum_bits - 1))); lia.
Qed.

(** X17. When the base enumeration declares [NOT_SET] first: after Set of
    a valid value Has returns true; on a field that was never set (raw
    value 0) Has returns false and Get returns -1, which is the value of
    no enumerant. *)
Theorem has_after_set_and_unset_get :
  forall (size_bits base_bits enum_bits : Z) (rest : list string) (v : Z),
    (0 < base_bits <= size_bits)%Z ->
    (0 < enum_bits <= size_bits)%Z ->
    (0 <= v)%Z -> (v + 1 < 2 ^ base_bits)%Z ->
    Wrapper.HasEnum ("NOT_SET" :: rest) (Wrapper.SetEnum size_bits base_bits v)
      = Some true /\
    Wrapper.HasEnum ("NOT_SET" :: rest) 0 = Some false /\
    Wrapper.GetEnum size_bits enum_bits 0 = (-1)%Z.
Proof.
  intros size_bits base_bits enum_bits rest v Hbase Henum Hv Hfit.
  split; [|split; [reflexivity | now apply GetEnum_unset]].
  rewrite SetEnum_small by assumption.
  rewrite (HasEnum_spec _ 0%Z) by apply enumerator_from_first.
  destruct (Z.eqb_spec (v + 1) 0); [lia | reflexivity].
Qed.

(** The enumeration [Color] with a 64-bit [size_t], a 16-bit base
    enumeration and a 32-bit wrapper enumeration. *)
Lemma has_after_set_and_unset_get_witness :
  (0 < 16 <= 64)%Z /\ (0 < 32 <= 64)%Z /\ (0 <= 1)%Z /\ (1 + 1 < 2 ^ 16)%Z /\
  Wrapper.HasEnum ["NOT_SET"; "RED"; "GREEN"] (Wrapper.SetEnum 64 16 1) = Some true /\
  Wrapper.HasEnum ["NOT_SET"; "RED"; "GREEN"] 0 = Some false /\
  Wrapper.GetEnum 64 32 0 = (-1)%Z.
Proof.
  assert (H1 : (0 < 16 <= 64)%Z) by lia.
  assert (H2 : (0 < 32 <= 64)%Z) by lia.
  assert (H3 : (0 <= 1)%Z) by lia.
  assert (H4 : (1 + 1 < 2 ^ 16)%Z) by lia.
  repeat (split; [assumption|]).
  exact (has_after_set_and_unset_get 64 16 32 ["RED"; "GREEN"] 1 H1 H2 H3 H4).
Defined.

(** ** Kinds and the table of basic types *)

(** X18. The keys of [CAPNP_BASIC_TYPES] are exactly the names of the
    fourteen primitive kinds: a field of such a kind always resolves, to
    its kind name, and the table gives it a host type; the kind names of
    lists, enumerations, records, interfaces and untyped pointers are no
    keys of the table. *)
Theorem basic_types_are_the_primitive_kinds (self : Parser.t) (t : SlotType) :
  Generator.is_basic_type (which t) = is_primitive t /\
  (is_primitive t = true ->
     Parser.resolve_type self t = Ok (which t) /\
     exists host, dict_get CAPNP_BASIC_TYPES (which t) = Some host).
Proof.
  split.
  - destruct t; reflexivity.
  - destruct t; simpl; try discriminate; intros _; split; try reflexivity;
      eexists; reflexivity.
Qed.

(** A field of kind [float64], and one of kind [anyPointer]. *)
Lemma basic_types_are_the_primitive_kinds_witness :
  is_primitive t_float64 = true /\
  Parser.resolve_type Parser.init t_float64 = Ok "float64" /\
  (exists host, dict_get CAPNP_BASIC_TYPES "float64" = Some host) /\
  Generator.is_basic_type (which t_anyPointer) = false.
Proof.
  assert (H : is_primitive t_float64 = true) by reflexivity.
  split; [exact H|].
  destruct (proj2 (basic_types_are_the_primitive_kinds Parser.init t_float64) H)
    as [Hres Hhost].
  split; [exact Hres|]. split; [exact Hhost|].
  exact (proj1 (basic_types_are_the_primitive_kinds Parser.init t_anyPointer)).
Defined.
